(** * crash-clouseau: push / build correlation ([crashclouseau/pushlog.py])

    A shallow embedding of [pushlog.py] and the properties of its
    changeset classifier, window resolver and URL synthesizer.

    Conventions of the embedding.
    - A Python [str] is a [str]: a list of Unicode code points, each a
      number ([char]).  Every number is admitted as a code point; the
      module treats those that Unicode does not assign like any other
      character that is no letter.
    - [lower] and [upper] are Unicode's simple case mappings on the code
      points that they relate to an ASCII letter, and on dotless i and
      long s, the two characters that [re] makes equivalent to an ASCII
      letter; elsewhere they are the identity.  The patterns of the module
      contain ASCII letters only, and for such patterns this gives the
      matches of [re.I] on every text.
    - A Python exception is a value [Raise e] of [result]; a function that
      can raise returns a [result].
    - [int] refuses a text of more than [int_max_str_digits] digits, the
      interpreter's default limit.
    - A parsed JSON document is a [json]; a JSON object is an association
      list in the order the parser inserted the keys.
    - A [datetime] is a number of microseconds on the time line; the
      calendar limits of Python's [datetime] are outside the model. *)

From Stdlib Require Import List NArith ZArith Lia Bool Arith.
From Stdlib.Strings Require Import Byte.
Import ListNotations.

Set Implicit Arguments.

(** ** Text *)

Definition char : Type := N.

Definition str : Type := list char.

(** ASCII text written between quotes stands for the code points of its
    characters. *)
Inductive literal : Set :=
| lit_nil
| lit_cons (c : N) (s : literal).

Fixpoint literal_of_bytes (l : list byte) : literal :=
  match l with
  | [] => lit_nil
  | b :: l' => lit_cons (Byte.to_N b) (literal_of_bytes l')
  end.

Fixpoint bytes_of_literal (s : literal) : option (list byte) :=
  match s with
  | lit_nil => Some []
  | lit_cons c s' =>
      match Byte.of_N c, bytes_of_literal s' with
      | Some b, Some l => Some (b :: l)
      | _, _ => None
      end
  end.

Declare Scope str_scope.
Delimit Scope str_scope with str.
Bind Scope str_scope with str.
#[warnings="-via-type-remapping,-via-type-mismatch"]
String Notation str literal_of_bytes bytes_of_literal
  (via literal mapping [[nil] => lit_nil, [cons] => lit_cons]) : str_scope.

Declare Scope char_scope.
Delimit Scope char_scope with char.
Bind Scope char_scope with char.
String Notation N Byte.to_N Byte.of_N : char_scope.

Open Scope str_scope.

Fixpoint str_eqb (s1 s2 : str) : bool :=
  match s1, s2 with
  | [], [] => true
  | c1 :: s1', c2 :: s2' => N.eqb c1 c2 && str_eqb s1' s2'
  | _, _ => false
  end.

(** ** Parsed JSON, the values the module handles *)

#[warnings="-register-all"]
Inductive json : Type :=
| JNull
| JBool (b : bool)
| JNum (z : Z)
| JStr (s : str)
| JArr (l : list json)
| JObj (kv : list (str * json)).

(** ** Exceptions and results *)

Inductive exn : Type :=
| KeyError (key : json)
| IndexError
| TypeError
| ValueError
| AttributeError
| TransportError.

Inductive result (A : Type) : Type :=
| Return (a : A)
| Raise (e : exn).

Arguments Return {A} a.
Arguments Raise {A} e.

Definition rbind {A B : Type} (r : result A) (k : A -> result B) : result B :=
  match r with
  | Return a => k a
  | Raise e => Raise e
  end.

Definition raised {A : Type} (r : result A) : Prop := exists e, r = Raise e.

Declare Scope result_scope.
Delimit Scope result_scope with res.
Notation "x <- c ;; k" := (rbind c (fun x => k))
  (at level 61, c at next level, right associativity) : result_scope.

(** ** Characters *)

Definition between (lo hi c : char) : bool := ((lo <=? c) && (c <=? hi))%N.

Definition is_upper (c : char) : bool := between "A" "Z" c.
Definition is_lower (c : char) : bool := between "a" "z" c.
Definition is_digit (c : char) : bool := between "0" "9" c.

(** The four characters beyond ASCII that [re.I] lets match an ASCII
    letter: U+0130 and U+0131 for "i", U+017F for "s", U+212A for "k". *)
Definition dotted_I : char := 0x130%N.
Definition dotless_i : char := 0x131%N.
Definition long_s : char := 0x17F%N.
Definition kelvin : char := 0x212A%N.

(** [_sre.unicode_tolower] *)
Definition lower (c : char) : char :=
  if is_upper c then (c + 32)%N
  else if N.eqb c dotted_I then "i"%char
  else if N.eqb c kelvin then "k"%char
  else c.

(** [_sre.unicode_toupper], as [iscased] uses it *)
Definition upper (c : char) : char :=
  if is_lower c then (c - 32)%N
  else if N.eqb c dotless_i then "I"%char
  else if N.eqb c long_s then "S"%char
  else c.

(** [_sre.unicode_iscased] *)
Definition iscased (c : char) : bool :=
  negb (N.eqb c (lower c)) || negb (N.eqb c (upper c)).

(** [sre_compile._ignorecase_fixes]: lower-case characters that have one
    upper case in common. *)
Definition fixes (lo : char) : list char :=
  if N.eqb lo "i"%char then [dotless_i]
  else if N.eqb lo dotless_i then ["i"%char]
  else if N.eqb lo "s"%char then [long_s]
  else if N.eqb lo long_s then ["s"%char]
  else [].

(** ** The regular expressions of [re], as far as the module uses them *)

Module Re.

Record flags : Type := Flags {
  ignorecase : bool;   (* re.I *)
  multiline : bool;    (* re.M *)
  dotall : bool        (* re.S *)
}.

Inductive item : Type :=
| One (c : char)
| Range (lo hi : char).

Inductive regex : Type :=
| Eps
| Lit (c : char)
| Cls (items : list item)
| Any
| Bol
| Seq (r1 r2 : regex)
| Alt (r1 r2 : regex)
| Opt (r : regex)
| Star (r : regex)
| Plus (r : regex)
| Grp (n : nat) (r : regex).

(** A word of literals. *)
Fixpoint Word (l : str) : regex :=
  match l with
  | [] => Eps
  | [c] => Lit c
  | c :: l' => Seq (Lit c) (Word l')
  end.

Definition in_item (c : char) (i : item) : bool :=
  match i with
  | One d => N.eqb c d
  | Range lo hi => between lo hi c
  end.

Definition in_items (items : list item) (c : char) : bool :=
  existsb (in_item c) items.

(** A literal under [re.I]: a cased pattern character is compiled to its
    lower case and the fixes of that, and the character of the text is
    lowered before it is compared. *)
Definition lit_ok (fl : flags) (p c : char) : bool :=
  if ignorecase fl && iscased p
  then existsb (N.eqb (lower c)) (lower p :: fixes (lower p))
  else N.eqb c p.

Definition cls_ok (fl : flags) (items : list item) (c : char) : bool :=
  if ignorecase fl
  then in_items items c || in_items items (lower c) || in_items items (upper c)
  else in_items items c.

Definition newline : char := 10%N.

Definition any_ok (fl : flags) (c : char) : bool :=
  dotall fl || negb (N.eqb c newline).

(** The state of a match in progress: the text already consumed (last
    character first), the text still ahead, and the groups captured. *)
Record mstate : Type := MState {
  before : list char;
  rest : list char;
  groups : list (nat * list char)
}.

Definition bol_ok (fl : flags) (bef : list char) : bool :=
  match bef with
  | [] => true
  | c :: _ => multiline fl && N.eqb c newline
  end.

Definition step1 (ok : char -> bool) (st : mstate) : list mstate :=
  match rest st with
  | c :: l => if ok c then [MState (c :: before st) l (groups st)] else []
  | [] => []
  end.

Definition consumed (st st' : mstate) : list char :=
  firstn (length (rest st) - length (rest st')) (rest st).

Definition capture (n : nat) (st st' : mstate) : mstate :=
  MState (before st') (rest st') ((n, consumed st st') :: groups st').

Definition shorter (st' st : mstate) : bool :=
  length (rest st') <? length (rest st).

(** Greedy repetition: every way to go on after one more round of [body]
    comes before stopping here.  A round that consumes nothing is not
    repeated. *)
Fixpoint star_states (body : mstate -> list mstate) (fuel : nat) (st : mstate)
  : list mstate :=
  match fuel with
  | O => [st]
  | S fuel' =>
      flat_map (fun st' => if shorter st' st
                           then star_states body fuel' st' else [])
               (body st) ++ [st]
  end.

(** All the ways [r] can match at [st], in the order the backtracking
    matcher tries them; the head is the match [re] reports. *)
Fixpoint run (fl : flags) (r : regex) (st : mstate) : list mstate :=
  match r with
  | Eps => [st]
  | Lit p => step1 (lit_ok fl p) st
  | Cls items => step1 (cls_ok fl items) st
  | Any => step1 (any_ok fl) st
  | Bol => if bol_ok fl (before st) then [st] else []
  | Seq r1 r2 => flat_map (run fl r2) (run fl r1 st)
  | Alt r1 r2 => run fl r1 st ++ run fl r2 st
  | Opt r1 => run fl r1 st ++ [st]
  | Star r1 => star_states (run fl r1) (S (length (rest st))) st
  | Plus r1 =>
      flat_map (fun st' => star_states (run fl r1) (S (length (rest st'))) st')
               (run fl r1 st)
  | Grp n r1 => map (capture n st) (run fl r1 st)
  end.

Record pattern : Type := Pattern { pat_regex : regex; pat_flags : flags }.

Definition compile (r : regex) (fl : flags) : pattern := Pattern r fl.

(** [pattern.match]: a match that starts at the start of the text. *)
Definition match_ (p : pattern) (s : str) : option mstate :=
  hd_error (run (pat_flags p) (pat_regex p) (MState [] s [])).

(** [pattern.search]: the first position where a match starts. *)
Fixpoint search_from (p : pattern) (bef : list char) (l : list char)
  : option mstate :=
  match run (pat_flags p) (pat_regex p) (MState bef l []) with
  | st :: _ => Some st
  | [] =>
      match l with
      | [] => None
      | c :: l' => search_from p (c :: bef) l'
      end
  end.

Definition search (p : pattern) (s : str) : option mstate :=
  search_from p [] s.

(** [m.group(n)]: [None] for a group that took no part in the match. *)
Fixpoint lookup_group (n : nat) (g : list (nat * list char))
  : option (list char) :=
  match g with
  | [] => None
  | (k, w) :: g' => if Nat.eqb k n then Some w else lookup_group n g'
  end.

Definition group (m : mstate) (n : nat) : option (list char) :=
  lookup_group n (groups m).

End Re.

Import Re.

(** ** [int] on text *)

Definition digit_value (c : char) : Z := Z.of_N c - 48.

Fixpoint digits_value (acc : Z) (l : list char) : Z :=
  match l with
  | [] => acc
  | c :: l' => digits_value (10 * acc + digit_value c) l'
  end.

(** [sys.int_info.default_max_str_digits] *)
Definition int_max_str_digits : nat := 4300.

(** [int(text)] for a text of decimal digits, of which there may be
    [int_max_str_digits] at most; anything else is a [ValueError] (signs,
    blanks and underscores do not occur here). *)
Definition py_int (l : list char) : result Z :=
  match l with
  | [] => Raise ValueError
  | _ =>
      if forallb is_digit l
      then if length l <=? int_max_str_digits
           then Return (digits_value 0 l)
           else Raise ValueError
      else Raise ValueError
  end.

(** ** The two patterns and the description classifiers *)

Definition re_I_S : flags := Flags true false true.
Definition re_I : flags := Flags true false false.

(** [^(?:(?:back(?:ed|ing|s)?(?:[ _]*out[_]?))|(?:revert(?:ing|s)?)) (?:(?:cset|changeset|revision|rev|of)s?)?] *)
Definition BACKOUT_PAT : pattern :=
  compile
    (Seq Bol
      (Seq
        (Alt
          (Seq (Word "back")
            (Seq (Opt (Alt (Word "ed") (Alt (Word "ing") (Word "s"))))
              (Seq (Star (Cls [One " "; One "_"]))
                (Seq (Word "out") (Opt (Cls [One "_"]))))))
          (Seq (Word "revert") (Opt (Alt (Word "ing") (Word "s")))))
        (Seq (Lit " ")
          (Opt
            (Seq
              (Alt (Word "cset")
                (Alt (Word "changeset")
                  (Alt (Word "revision") (Alt (Word "rev") (Word "of")))))
              (Opt (Lit "s")))))))
    re_I_S.

Definition tab : char := 9%N.

(** [^bug[ \t]*([0-9]+)] *)
Definition BUG_PAT : pattern :=
  compile
    (Seq Bol
      (Seq (Word "bug")
        (Seq (Star (Cls [One " "; One tab]))
          (Grp 1 (Plus (Cls [Range "0" "9"]))))))
    re_I.

(** Check the patch description to know if we've a backout or not. *)
Definition is_backed_out (desc : str) : bool :=
  match match_ BACKOUT_PAT desc with
  | Some _ => true
  | None => false
  end.

(** Get a bug number from the patch description. *)
Definition get_bug (desc : str) : result Z :=
  match search BUG_PAT desc with
  | Some m =>
      match group m 1 with
      | Some w => py_int w
      | None => Raise TypeError
      end
  | None => Return (-1)%Z
  end.


(** ** What a pattern matches, as a set of words

    [lang fl r bef w]: the pattern [r] can match the word [w] when the text
    [bef] (last character first) stands before it. *)

Inductive star_lang (P : list char -> list char -> Prop)
  : list char -> list char -> Prop :=
| star_lang_stop bef : star_lang P bef []
| star_lang_round bef w1 w2 :
    P bef w1 -> w1 <> [] -> star_lang P (rev w1 ++ bef) w2 ->
    star_lang P bef (w1 ++ w2).

Fixpoint lang (fl : flags) (r : regex) (bef w : list char) : Prop :=
  match r with
  | Eps => w = []
  | Lit p => exists c, w = [c] /\ lit_ok fl p c = true
  | Cls items => exists c, w = [c] /\ cls_ok fl items c = true
  | Any => exists c, w = [c] /\ any_ok fl c = true
  | Bol => w = [] /\ bol_ok fl bef = true
  | Seq r1 r2 =>
      exists w1 w2, w = w1 ++ w2 /\ lang fl r1 bef w1 /\
                    lang fl r2 (rev w1 ++ bef) w2
  | Alt r1 r2 => lang fl r1 bef w \/ lang fl r2 bef w
  | Opt r1 => lang fl r1 bef w \/ w = []
  | Star r1 => star_lang (lang fl r1) bef w
  | Plus r1 =>
      exists w1 w2, w = w1 ++ w2 /\ lang fl r1 bef w1 /\
                    star_lang (lang fl r1) (rev w1 ++ bef) w2
  | Grp _ r1 => lang fl r1 bef w
  end.

(** A greedy run over one character class, longest first. *)
Fixpoint cls_star (ok : char -> bool) (bef l : list char)
  (g : list (nat * list char)) : list mstate :=
  match l with
  | c :: l' =>
      if ok c then cls_star ok (c :: bef) l' g ++ [MState bef l g]
      else [MState bef l g]
  | [] => [MState bef [] g]
  end.

Fixpoint take_while (ok : char -> bool) (l : list char) : list char :=
  match l with
  | c :: l' => if ok c then c :: take_while ok l' else []
  | [] => []
  end.

Fixpoint drop_while (ok : char -> bool) (l : list char) : list char :=
  match l with
  | c :: l' => if ok c then drop_while ok l' else l
  | [] => []
  end.

(** ** Letters without their case

    [fold c] is the letter that [re.I] takes [c] for: the lower case of
    [c], with dotless i read as "i" and long s as "s".  Two characters
    match each other under [re.I] when they fold to the same letter. *)
Definition fold (c : char) : char :=
  if N.eqb (lower c) dotless_i then "i"%char
  else if N.eqb (lower c) long_s then "s"%char
  else lower c.

Definition folds (l : list char) : list char := map fold l.

(** [strip_ci p l]: [l] without its start [p], compared without case. *)
Fixpoint strip_ci (p l : list char) : option (list char) :=
  match p with
  | [] => Some l
  | a :: p' =>
      match l with
      | c :: l' => if N.eqb (fold c) (fold a) then strip_ci p' l' else None
      | [] => None
      end
  end.

(** ** The descriptions, in the words of the specification *)

Definition is_blank (c : char) : bool := N.eqb c " "%char || N.eqb c tab.

Definition is_joiner (c : char) : bool := N.eqb c " "%char || N.eqb c "_"%char.

Definition no_digit_ahead (l : list char) : Prop :=
  match l with
  | c :: _ => is_digit c = false
  | [] => True
  end.

(** The description opens with a bug token whose digit run is [ds]:
    "bug" in any case, blanks, then the whole run of digits. *)
Definition bug_token (d : str) (ds : list char) : Prop :=
  exists b ws tail,
    d = b ++ ws ++ ds ++ tail /\
    folds b = "bug" /\
    forallb is_blank ws = true /\
    ds <> [] /\ forallb is_digit ds = true /\
    no_digit_ahead tail.

(** The digit run of the bug token that opens the description, read off
    the text directly; empty when the description opens with no token. *)
Definition bug_digits (d : str) : list char :=
  match strip_ci "bug" d with
  | Some l => take_while is_digit (drop_while is_blank l)
  | None => []
  end.

(** The number [get_bug] is to give: that of the digit run, or -1. *)
Definition leading_bug (d : str) : Z :=
  match bug_digits d with
  | [] => (-1)%Z
  | ds => digits_value 0 ds
  end.

(** The digit run of the description is one that [int] accepts. *)
Definition bug_fits (d : str) : bool :=
  length (bug_digits d) <=? int_max_str_digits.

(** The verb of a backout announcement: "back", "backed", "backing" or
    "backs", joiners, "out" and maybe an underscore; or "revert",
    "reverting" or "reverts"; each letter in either case, or a character
    that [re.I] takes for it. *)
Definition backout_verb (v : list char) : Prop :=
  (exists suffix joiners underscore,
     In suffix [[]; "ed"; "ing"; "s"] /\
     forallb is_joiner joiners = true /\
     In underscore [[]; "_"] /\
     folds v = "back" ++ suffix ++ joiners ++ "out" ++ underscore)
  \/
  (exists suffix,
     In suffix [[]; "ing"; "s"] /\
     folds v = "revert" ++ suffix).

(** The description begins with a verb form and a space after it. *)
Definition announces_backout (d : str) : Prop :=
  exists v tail, backout_verb v /\ d = v ++ " "%char :: tail.

(** The description begins with the text [p], case apart. *)
Definition begins_with (p d : str) : Prop :=
  exists q tail, d = q ++ tail /\ folds q = folds p.

(** The two halves of [BACKOUT_PAT] around its space. *)
Definition verb_re : regex :=
  Alt
    (Seq (Word "back")
      (Seq (Opt (Alt (Word "ed") (Alt (Word "ing") (Word "s"))))
        (Seq (Star (Cls [One " "; One "_"]))
          (Seq (Word "out") (Opt (Cls [One "_"]))))))
    (Seq (Word "revert") (Opt (Alt (Word "ing") (Word "s")))).

Definition noun_re : regex :=
  Opt
    (Seq
      (Alt (Word "cset")
        (Alt (Word "changeset")
          (Alt (Word "revision") (Alt (Word "rev") (Word "of")))))
      (Opt (Lit "s"))).

(** ** Python operations on parsed JSON *)

Fixpoint assoc (k : str) (kv : list (str * json)) : option json :=
  match kv with
  | [] => None
  | (k', v) :: kv' => if str_eqb k' k then Some v else assoc k kv'
  end.

(** [v[k]] for a text key [k]. *)
Definition getitem (v : json) (k : str) : result json :=
  match v with
  | JObj kv =>
      match assoc k kv with
      | Some x => Return x
      | None => Raise (KeyError (JStr k))
      end
  | _ => Raise TypeError
  end.

(** [v[i]] for an index [i >= 0]. *)
Definition getindex (v : json) (i : nat) : result json :=
  match v with
  | JArr l =>
      match nth_error l i with
      | Some x => Return x
      | None => Raise IndexError
      end
  | JStr s =>
      match nth_error s i with
      | Some c => Return (JStr [c])
      | None => Raise IndexError
      end
  | JObj _ => Raise (KeyError (JNum (Z.of_nat i)))
  | _ => Raise TypeError
  end.

(** [v.values()] *)
Definition values (v : json) : result (list json) :=
  match v with
  | JObj kv => Return (map snd kv)
  | _ => Raise AttributeError
  end.

(** The elements a [for] loop over [v] visits. *)
Definition iterate (v : json) : result (list json) :=
  match v with
  | JArr l => Return l
  | JStr s => Return (map (fun c => JStr [c]) s)
  | JObj kv => Return (map (fun p => JStr (fst p)) kv)
  | _ => Raise TypeError
  end.

(** [len(v)] *)
Definition py_len (v : json) : result nat :=
  match v with
  | JArr l => Return (length l)
  | JStr s => Return (length s)
  | JObj kv => Return (length kv)
  | _ => Raise TypeError
  end.

(** The truth value of [v] in [if v:]. *)
Definition truthy (v : json) : bool :=
  match v with
  | JNull => false
  | JBool b => b
  | JNum z => negb (Z.eqb z 0)
  | JStr s => match s with [] => false | _ => true end
  | JArr l => match l with [] => false | _ => true end
  | JObj kv => match kv with [] => false | _ => true end
  end.

(** Text where the module hands a value to a function on text. *)
Definition as_str (v : json) : result str :=
  match v with
  | JStr s => Return s
  | _ => Raise TypeError
  end.

(** A number of seconds where the module reads a timestamp. *)
Definition as_timestamp (v : json) : result Z :=
  match v with
  | JNum z => Return z
  | JBool b => Return (if b then 1 else 0)%Z
  | _ => Raise TypeError
  end.

(** ** Time *)

Definition datetime : Type := Z.

Definition microsecond : Z := 1000000.

(** [relativedelta(seconds=n)], as the span it adds to a [datetime]. *)
Definition relativedelta_seconds (n : Z) : Z := (n * microsecond)%Z.

(** [lmdutils.get_date_from_timestamp]: the moment [ts] seconds after the
    epoch. *)
Definition get_date_from_timestamp (ts : Z) : datetime := (ts * microsecond)%Z.

(** The whole second a [datetime] shows when it is printed with [%S]. *)
Definition shown_second (d : datetime) : Z := (d / microsecond)%Z.

(** ** [str.format] with [{}] fields *)

Fixpoint format (template : str) (args : list str) : result str :=
  match template with
  | [] => Return []
  | c :: t =>
      if N.eqb c "{"%char then
        match t with
        | c' :: t' =>
            if N.eqb c' "}"%char then
              match args with
              | a :: args' =>
                  rbind (format t' args') (fun r => Return (a ++ r))
              | [] => Raise IndexError
              end
            else if N.eqb c' "{"%char then
              rbind (format t' args) (fun r => Return ("{"%char :: r))
            else Raise ValueError
        | [] => Raise ValueError
        end
      else if N.eqb c "}"%char then
        match t with
        | c' :: t' =>
            if N.eqb c' "}"%char then
              rbind (format t' args) (fun r => Return ("}"%char :: r))
            else Raise ValueError
        | [] => Raise ValueError
        end
      else rbind (format t args) (fun r => Return (c :: r))
  end.

(** ** The records the collector produces *)

Record Push (A : Type) : Type := MkPush {
  date : datetime;
  node : str;
  backedout : bool;
  files : list str;
  merge : bool;
  bug : Z;
  author : A
}.

(** ** Collaborators *)

(** The functions the module calls and does not define: [utils],
    [hgauthors], [libmozdata] and the platform's [strftime]. *)
Record library (A : Type) : Type := Library {
  short_rev : str -> str;
  analyze_author : str -> A;
  is_interesting_file : str -> bool;
  get_build_date : str -> datetime;
  get_repo_url : str -> str;
  strftime : datetime -> str -> str
}.

(** The services the module asks: [requests.get(url, params).json()],
    [buildhub.get_two_last] and [models.Build.get_two_last]. *)
Record world : Type := World {
  requests_get : str -> list (str * json) -> result json;
  buildhub_get_two_last : str -> str -> str -> result json;
  models_get_two_last : datetime -> str -> str -> result json
}.

Inductive event : Type :=
| HttpGet (url : str) (params : list (str * json))
| BuildhubTwoLast (buildid channel product : str)
| ModelsTwoLast (builddate : datetime) (channel product : str).

(** A computation that may ask the services: it extends the log of the
    questions asked and returns or raises. *)
Definition io (A : Type) : Type := list event -> result A * list event.

Definition io_ret {A : Type} (a : A) : io A := fun log => (Return a, log).

Definition io_bind {A B : Type} (m : io A) (k : A -> io B) : io B :=
  fun log =>
    match m log with
    | (Return a, log') => k a log'
    | (Raise e, log') => (Raise e, log')
    end.

Definition io_lift {A : Type} (r : result A) : io A := fun log => (r, log).

Definition ask {A : Type} (ev : event) (answer : result A) : io A :=
  fun log => (answer, log ++ [ev]).

Declare Scope io_scope.
Delimit Scope io_scope with io.
Notation "x <- c ;; k" := (io_bind c (fun x => k))
  (at level 61, c at next level, right associativity) : io_scope.


(** ** The shape of a well-formed answer of [json-pushes] *)

Record raw_changeset : Type := RawChangeset {
  cs_node : str;
  cs_desc : str;
  cs_author : str;
  cs_parents : list str;
  cs_files : list str
}.

Record push_group : Type := PushGroup {
  pg_date : Z;
  pg_changesets : list raw_changeset
}.

Fixpoint traverse {X Y : Type} (f : X -> option Y) (l : list X)
  : option (list Y) :=
  match l with
  | [] => Some []
  | x :: l' =>
      match f x, traverse f l' with
      | Some y, Some ys => Some (y :: ys)
      | _, _ => None
      end
  end.

Definition view_text (v : json) : option str :=
  match v with
  | JStr s => Some s
  | _ => None
  end.

Definition view_texts (v : json) : option (list str) :=
  match v with
  | JArr l => traverse view_text l
  | _ => None
  end.

Definition field {Y : Type} (k : str) (view : json -> option Y)
  (kv : list (str * json)) : option Y :=
  match assoc k kv with
  | Some v => view v
  | None => None
  end.

(** A changeset that has its five keys, each of the expected type; other
    keys may be there too. *)
Definition view_changeset (v : json) : option raw_changeset :=
  match v with
  | JObj kv =>
      match field "node" view_text kv, field "desc" view_text kv,
            field "author" view_text kv, field "parents" view_texts kv,
            field "files" view_texts kv with
      | Some n, Some d, Some a, Some ps, Some fs =>
          Some (RawChangeset n d a ps fs)
      | _, _, _, _, _ => None
      end
  | _ => None
  end.

Definition view_changesets (v : json) : option (list raw_changeset) :=
  match v with
  | JArr l => traverse view_changeset l
  | _ => None
  end.

Definition view_number (v : json) : option Z :=
  match v with
  | JNum z => Some z
  | _ => None
  end.

Definition view_group (v : json) : option push_group :=
  match v with
  | JObj kv =>
      match field "date" view_number kv,
            field "changesets" view_changesets kv with
      | Some d, Some cs => Some (PushGroup d cs)
      | _, _ => None
      end
  | _ => None
  end.

Definition view_groups (v : json) : option (list push_group) :=
  match v with
  | JObj kv => traverse view_group (map snd kv)
  | _ => None
  end.

(** The push groups of a well-shaped payload, in the order of the
    ["pushes"] object. *)
Definition view_payload (data : json) : option (list push_group) :=
  match data with
  | JObj kv => field "pushes" view_groups kv
  | _ => None
  end.

Definition enc_changeset (c : raw_changeset) : json :=
  JObj [("node", JStr (cs_node c)); ("desc", JStr (cs_desc c));
        ("author", JStr (cs_author c));
        ("parents", JArr (map JStr (cs_parents c)));
        ("files", JArr (map JStr (cs_files c)))].

Definition enc_group (g : push_group) : json :=
  JObj [("date", JNum (pg_date g));
        ("changesets", JArr (map enc_changeset (pg_changesets g)))].

Definition enc_payload (pushes : list (str * push_group)) : json :=
  JObj [("pushes", JObj (map (fun p => (fst p, enc_group (snd p))) pushes))].

(** Every description of the groups has a bug number that [int] accepts. *)
Definition group_fits (g : push_group) : bool :=
  forallb (fun c => bug_fits (cs_desc c)) (pg_changesets g).

Definition bugs_fit (groups : list push_group) : bool :=
  forallb group_fits groups.

(** The answer of a service that keeps the pushes [repo] and gives those
    strictly between the two moments of the question, read to the second. *)
Definition strictly_between (a b : datetime) (p : str * push_group) : bool :=
  ((shown_second a <? pg_date (snd p)) && (pg_date (snd p) <? shown_second b))%Z.

Definition hg_strict_answer (repo : list (str * push_group))
  (a b : datetime) : json :=
  enc_payload (filter (strictly_between a b) repo).

(** ** Payloads that miss a key *)

Definition lacks (k : str) (v : json) : Prop :=
  exists kv, v = JObj kv /\ assoc k kv = None.

Definition changeset_keys : list str :=
  ["files"; "desc"; "author"; "node"; "parents"].

Definition changeset_lacks_key (c : json) : Prop :=
  exists k, In k changeset_keys /\ lacks k c.

Definition group_lacks_key (g : json) : Prop :=
  lacks "date" g \/ lacks "changesets" g \/
  exists kv cs c,
    g = JObj kv /\ assoc "changesets" kv = Some (JArr cs) /\
    In c cs /\ changeset_lacks_key c.

Definition payload_lacks_key (data : json) : Prop :=
  lacks "pushes" data \/
  exists kv groups g,
    data = JObj kv /\ assoc "pushes" kv = Some (JObj groups) /\
    In g (map snd groups) /\ group_lacks_key g.

(** ** A calendar [strftime], for the examples *)

Definition digit_char (n : Z) : char := Z.to_N (48 + n mod 10).

Definition two_digits (n : Z) : str := [digit_char (n / 10); digit_char n].

Definition four_digits (n : Z) : str :=
  two_digits (n / 100) ++ two_digits (n mod 100).

(** Year, month and day of the day [days] after 1970-01-01. *)
Definition civil_from_days (days : Z) : Z * Z * Z :=
  (let z := days + 719468 in
   let era := z / 146097 in
   let doe := z - era * 146097 in
   let yoe := (doe - doe / 1460 + doe / 36524 - doe / 146096) / 365 in
   let doy := doe - (365 * yoe + yoe / 4 - yoe / 100) in
   let mp := (5 * doy + 2) / 153 in
   let d := doy - (153 * mp + 2) / 5 + 1 in
   let m := if mp <? 10 then mp + 3 else mp - 9 in
   let y := yoe + era * 400 + (if m <=? 2 then 1 else 0) in
   (y, m, d))%Z.

Definition directive (t : datetime) (c : char) : str :=
  (let s := shown_second t in
   let '(y, m, d) := civil_from_days (s / 86400) in
   let sod := s mod 86400 in
   if N.eqb c "Y"%char then four_digits y
   else if N.eqb c "m"%char then two_digits m
   else if N.eqb c "d"%char then two_digits d
   else if N.eqb c "H"%char then two_digits (sod / 3600)
   else if N.eqb c "M"%char then two_digits (sod mod 3600 / 60)
   else if N.eqb c "S"%char then two_digits (sod mod 60)
   else ["%"%char; c])%Z.

Fixpoint calendar_strftime_from (t : datetime) (fmt : str) : str :=
  match fmt with
  | [] => []
  | c :: fmt' =>
      if N.eqb c "%"%char then
        match fmt' with
        | c' :: fmt'' => directive t c' ++ calendar_strftime_from t fmt''
        | [] => [c]
        end
      else c :: calendar_strftime_from t fmt'
  end.

Definition calendar_strftime (t : datetime) (fmt : str) : str :=
  calendar_strftime_from t fmt.

(** A library and services to run the module on. *)
Definition sample_repo_url (channel : str) : str :=
  if str_eqb channel "nightly" then "https://hg.mozilla.org/mozilla-central"
  else "https://hg.mozilla.org/releases/mozilla-" ++ channel.

Definition sample_library : library str :=
  Library (fun rev => firstn 12 rev) (fun a => a) (fun _ => true)
          (fun _ => 0%Z) sample_repo_url calendar_strftime.

Definition sample_changeset (n d : str) (parents : list str)
  : raw_changeset :=
  RawChangeset n d "Jane Doe <jane@example.org>" parents ["dom/base/a.cpp"].

(** Three pushes: at 2020-01-01 00:00:00, at 2020-01-01 12:00:00 and at
    2020-01-02 00:00:00. *)
Definition sample_repo : list (str * push_group) :=
  [("101", PushGroup 1577836800
             [sample_changeset "aaaaaaaaaaaa1111" "Bug 1: first" ["p0"]]);
   ("102", PushGroup 1577880000
             [sample_changeset "bbbbbbbbbbbb2222" "Bug 2: second" ["p1"]]);
   ("103", PushGroup 1577923200
             [sample_changeset "cccccccccccc3333" "Bug 3: third" ["p2"]])].

(** A changeset whose bug number has one digit more than [int] accepts,
    alone in a payload and after the pushes of [sample_repo]. *)
Definition long_bug_changeset : raw_changeset :=
  sample_changeset "dddddddddddd4444"
    ("bug " ++ repeat "1"%char (S int_max_str_digits)) ["p3"].

Definition long_bug_repo : list (str * push_group) :=
  [("104", PushGroup 1577966400 [long_bug_changeset])].

(** A service that answers a date question about 2020-01-01 with the
    pushes strictly inside the second before and the second after. *)
Definition sample_world : world :=
  World (fun _ _ =>
           Return (hg_strict_answer sample_repo
                     (1577836800000000 - 1000000)%Z (1577923200000000 + 1000000)%Z))
        (fun _ _ _ => Return (JArr []))
        (fun _ _ _ => Return (JArr [])).

(** Services whose two build lookups give the same answers to every
    question: [remote] from [buildhub], [stored] from [models.Build]. *)
Definition lookup_world (http : str -> list (str * json) -> result json)
  (remote stored : json) : world :=
  World http (fun _ _ _ => Return remote) (fun _ _ _ => Return stored).

Definition one_build : json := JArr [JObj [("revision", JStr "aaaaaaaaaaaa")]].

Definition one_build_world : world :=
  World (fun _ _ => Raise TransportError)
        (fun _ _ _ => Return one_build)
        (fun _ _ _ => Return (JArr [])).

(** The payload of the scenario: one push, a merge and a backout. *)
Definition scenario_payload : json :=
  JObj [("pushes",
     JObj [("7",
        JObj [("date", JNum 1577836800);
              ("changesets",
               JArr [JObj [("node", JStr "0123456789abcdef");
                           ("desc", JStr "Bug 555: fix");
                           ("author", JStr "a <a@example.org>");
                           ("parents", JArr [JStr "p1"; JStr "p2"]);
                           ("files", JArr [JStr "x.cpp"])];
                     JObj [("node", JStr "fedcba9876543210");
                           ("desc", JStr "Backed out changeset abcd1234 (bug 555)");
                           ("author", JStr "b <b@example.org>");
                           ("parents", JArr [JStr "p3"]);
                           ("files", JArr [JStr "y.cpp"])]])])])].

(** ** The module, over its collaborators *)

Section Pushlog.

Context {A : Type}.
Variable lib : library A.
Variable w : world.

(** [[f for f in chgset["files"] if file_filter(f)]] *)
Fixpoint filter_files (file_filter : str -> bool) (fs : list json)
  : result (list str) :=
  match fs with
  | [] => Return []
  | f :: fs' =>
      rbind (as_str f) (fun name =>
      rbind (filter_files file_filter fs') (fun kept =>
      Return (if file_filter name then name :: kept else kept)))
  end.

(** The body of the inner loop: the record of one changeset. *)
Definition classify (file_filter : str -> bool) (pushdate : datetime)
  (chgset : json) : result (Push A) :=
  (fs <- getitem chgset "files" ;;
   fs <- iterate fs ;;
   files <- filter_files file_filter fs ;;
   desc <- getitem chgset "desc" ;;
   author <- getitem chgset "author" ;;
   nd <- getitem chgset "node" ;;
   nd <- as_str nd ;;
   desc <- as_str desc ;;
   parents <- getitem chgset "parents" ;;
   n <- py_len parents ;;
   b <- get_bug desc ;;
   author <- as_str author ;;
   Return (MkPush pushdate (short_rev lib nd) (is_backed_out desc) files
                  (1 <? n)%nat b (analyze_author lib author)))%res.

(** The start of the outer loop's body: the push date and the changesets
    the inner loop will visit. *)
Definition open_push (push : json) : result (datetime * list json) :=
  (d <- getitem push "date" ;;
   ts <- as_timestamp d ;;
   cs <- getitem push "changesets" ;;
   cs <- iterate cs ;;
   Return (get_date_from_timestamp ts, cs))%res.

(** The inner loop, [res] being the list the records are appended to. *)
Fixpoint collect_changesets (file_filter : str -> bool)
  (pushdate : datetime) (cs : list json) (res : list (Push A))
  : result (list (Push A)) :=
  match cs with
  | [] => Return res
  | chgset :: cs' =>
      rbind (classify file_filter pushdate chgset) (fun p =>
      collect_changesets file_filter pushdate cs' (res ++ [p]))
  end.

(** The outer loop. *)
Fixpoint collect_pushes (file_filter : str -> bool) (pushes : list json)
  (res : list (Push A)) : result (list (Push A)) :=
  match pushes with
  | [] => Return res
  | push :: pushes' =>
      rbind (open_push push) (fun dc =>
      rbind (collect_changesets file_filter (fst dc) (snd dc) res) (fun res' =>
      collect_pushes file_filter pushes' res'))
  end.

(** Collect the data we need in the pushlog got from hg.mozilla.org. *)
Definition collect (data : json) (file_filter : str -> bool)
  : result (list (Push A)) :=
  (pushes <- getitem data "pushes" ;;
   pushes <- values pushes ;;
   collect_pushes file_filter pushes [])%res.

(** *** [collect] with the list it builds as an object of a store

    [res = []] makes a new list object, [res.append(...)] changes that
    object where it is, and [return res] hands its address to the caller.
    The store holds the list objects made so far, by this call and by
    every call before it. *)

Definition address : Type := nat.

Definition store : Type := list (list (Push A)).

Definition read (s : store) (a : address) : list (Push A) := nth a s [].

Fixpoint update (a : address) (f : list (Push A) -> list (Push A)) (s : store)
  {struct s} : store :=
  match s, a with
  | [], _ => []
  | l :: s', O => f l :: s'
  | l :: s', S a' => l :: update a' f s'
  end.

(** A computation on the store: it returns or raises, and leaves a store. *)
Definition proc (X : Type) : Type := store -> result X * store.

Definition proc_ret {X : Type} (x : X) : proc X := fun s => (Return x, s).

Definition proc_bind {X Y : Type} (m : proc X) (k : X -> proc Y) : proc Y :=
  fun s =>
    match m s with
    | (Return x, s') => k x s'
    | (Raise e, s') => (Raise e, s')
    end.

Definition proc_lift {X : Type} (r : result X) : proc X := fun s => (r, s).

(** [[]]: a new list object, at an address not in use. *)
Definition new_list : proc address := fun s => (Return (length s), s ++ [[]]).

(** [res.append(p)] *)
Definition list_append (res : address) (p : Push A) : proc unit :=
  fun s => (Return tt, update res (fun l => l ++ [p]) s).

(** The inner loop on the list object at [res]. *)
Fixpoint append_changesets (file_filter : str -> bool) (pushdate : datetime)
  (cs : list json) (res : address) : proc unit :=
  match cs with
  | [] => proc_ret tt
  | chgset :: cs' =>
      proc_bind (proc_lift (classify file_filter pushdate chgset)) (fun p =>
      proc_bind (list_append res p) (fun _ =>
      append_changesets file_filter pushdate cs' res))
  end.

(** The outer loop on the list object at [res]. *)
Fixpoint append_pushes (file_filter : str -> bool) (pushes : list json)
  (res : address) : proc unit :=
  match pushes with
  | [] => proc_ret tt
  | push :: pushes' =>
      proc_bind (proc_lift (open_push push)) (fun dc =>
      proc_bind (append_changesets file_filter (fst dc) (snd dc) res) (fun _ =>
      append_pushes file_filter pushes' res))
  end.

(** One call of [collect]: it returns the address of its list. *)
Definition collect_call (data : json) (file_filter : str -> bool)
  : proc address :=
  proc_bind new_list (fun res =>
  proc_bind (proc_lift (getitem data "pushes")) (fun pushes =>
  proc_bind (proc_lift (values pushes)) (fun pushes =>
  proc_bind (append_pushes file_filter pushes res) (fun _ =>
  proc_ret res)))).

(** For contrast only, not the code: a collector that keeps its list from
    one call to the next at the address [kept], as [collect] would with a
    default argument [res=[]] or a list of the module. *)
Definition collect_call_kept (kept : address) (data : json)
  (file_filter : str -> bool) : proc address :=
  proc_bind (proc_lift (getitem data "pushes")) (fun pushes =>
  proc_bind (proc_lift (values pushes)) (fun pushes =>
  proc_bind (append_pushes file_filter pushes kept) (fun _ =>
  proc_ret kept))).

(** What the caller holds after a call: the exception, or the records of
    the list at the address returned. *)
Definition output (run : result address * store) : result (list (Push A)) :=
  match fst run with
  | Return a => Return (read (snd run) a)
  | Raise e => Raise e
  end.

(** [requests.get(url, params=params).json()] *)
Definition http_get_json (url : str) (params : list (str * json))
  : io json :=
  ask (HttpGet url params) (requests_get w url params).

Definition json_pushes_url (channel : str) : result str :=
  format "{}/json-pushes" [get_repo_url lib channel].

(** Get the pushlog from hg.mozilla.org. *)
Definition pushlog (startdate enddate : datetime) (channel : str)
  (file_filter : str -> bool) : io (list (Push A)) :=
  (let fmt := "%Y-%m-%d %H:%M:%S" in
   let startdate := (startdate - relativedelta_seconds 1)%Z in
   let startdate := strftime lib startdate fmt in
   let enddate := (enddate + relativedelta_seconds 1)%Z in
   let enddate := strftime lib enddate fmt in
   url <- io_lift (json_pushes_url channel) ;;
   r <- http_get_json url
          [("startdate", JStr startdate); ("enddate", JStr enddate);
           ("version", JNum 2); ("full", JNum 1)] ;;
   io_lift (collect r file_filter))%io.

(** Get the pushlog from startrev to endrev; the revisions are text. *)
Definition pushlog_for_revs (startrev endrev : str) (channel : str)
  (file_filter : str -> bool) : io (list (Push A)) :=
  (url <- io_lift (json_pushes_url channel) ;;
   r <- http_get_json url
          [("fromchange", JStr startrev); ("tochange", JStr endrev);
           ("version", JNum 2); ("full", JNum 1)] ;;
   io_lift (collect r file_filter))%io.

(** Get the pushlog url from startrev to endrev. *)
Definition pushlog_for_revs_url (startrev endrev channel : str)
  : io str :=
  io_lift (format "{}/pushloghtml?fromchange={}&tochange={}"
                  [get_repo_url lib channel; startrev; endrev]).

(** [data[i]["revision"]] *)
Definition revision_of (data : json) (i : nat) : result json :=
  (b <- getindex data i ;;
   getitem b "revision")%res.

(** Get the pushlog for a buildid/channel/product. *)
Definition pushlog_for_buildid (buildid channel product : str)
  (file_filter : str -> bool) : io (option (list (Push A))) :=
  (data <- ask (BuildhubTwoLast buildid channel product)
               (buildhub_get_two_last w buildid channel product) ;;
   if truthy data then
     startrev <- io_lift (revision_of data 0) ;;
     endrev <- io_lift (revision_of data 1) ;;
     startrev <- io_lift (as_str startrev) ;;
     endrev <- io_lift (as_str endrev) ;;
     res <- pushlog_for_revs startrev endrev channel file_filter ;;
     io_ret (Some res)
   else io_ret None)%io.

(** Get the pushlog url for a buildid/channel/product. *)
Definition pushlog_for_buildid_url (buildid channel product : str)
  : io (option str) :=
  (let builddate := get_build_date lib buildid in
   data <- ask (ModelsTwoLast builddate channel product)
               (models_get_two_last w builddate channel product) ;;
   n <- io_lift (py_len data) ;;
   data <- (if negb (n =? 2)%nat
            then ask (BuildhubTwoLast buildid channel product)
                     (buildhub_get_two_last w buildid channel product)
            else io_ret data) ;;
   if truthy data then
     startrev <- io_lift (revision_of data 0) ;;
     endrev <- io_lift (revision_of data 1) ;;
     startrev <- io_lift (as_str startrev) ;;
     endrev <- io_lift (as_str endrev) ;;
     url <- pushlog_for_revs_url startrev endrev channel ;;
     io_ret (Some url)
   else io_ret None)%io.

(** The record the specification asks for one changeset of a push group. *)
Definition classified (file_filter : str -> bool) (g : push_group)
  (c : raw_changeset) : Push A :=
  MkPush (get_date_from_timestamp (pg_date g)) (short_rev lib (cs_node c))
         (is_backed_out (cs_desc c)) (filter file_filter (cs_files c))
         (1 <? length (cs_parents c))%nat (leading_bug (cs_desc c))
         (analyze_author lib (cs_author c)).

Definition classified_all (file_filter : str -> bool)
  (groups : list push_group) : list (Push A) :=
  flat_map (fun g => map (classified file_filter g) (pg_changesets g)) groups.

End Pushlog.

(** ** The entry points by push date and by revision *)

(** The two further services: [buildhub.get_enclosing_builds] and
    [Revision.get_revision(channel, node)]. *)
Record lookups : Type := Lookups {
  buildhub_get_enclosing_builds : datetime -> str -> str -> result json;
  revision_get_revision : str -> str -> result json
}.

(** The questions of the whole module: those of [event] and the two
    further ones. *)
Inductive question : Type :=
| Asked (ev : event)
| EnclosingBuilds (pushdate : datetime) (channel product : str)
| GetRevision (channel node : str).

Definition wio (A : Type) : Type := list question -> result A * list question.

Definition wio_ret {A : Type} (a : A) : wio A := fun log => (Return a, log).

Definition wio_bind {A B : Type} (m : wio A) (k : A -> wio B) : wio B :=
  fun log =>
    match m log with
    | (Return a, log') => k a log'
    | (Raise e, log') => (Raise e, log')
    end.

Definition wio_lift {A : Type} (r : result A) : wio A := fun log => (r, log).

Definition wio_ask {A : Type} (q : question) (answer : result A) : wio A :=
  fun log => (answer, log ++ [q]).

(** A computation of [io] run inside [wio]: its questions join the log. *)
Definition widen {A : Type} (m : io A) : wio A :=
  fun log => (fst (m []), log ++ map Asked (snd (m []))).

Declare Scope wio_scope.
Delimit Scope wio_scope with wio.
Notation "x <- c ;; k" := (wio_bind c (fun x => k))
  (at level 61, c at next level, right associativity) : wio_scope.

Definition is_none (v : json) : bool :=
  match v with
  | JNull => true
  | _ => false
  end.

Section PushlogByDate.

Context {A : Type}.
Variable lib : library A.
Variable lk : lookups.

(** Get the pushlog url for the build containing pushdate. *)
Definition pushlog_for_pushdate_url (pushdate : datetime)
  (channel product : str) : wio (option str) :=
  (data <- wio_ask (EnclosingBuilds pushdate channel product)
                   (buildhub_get_enclosing_builds lk pushdate channel product) ;;
   if truthy data then
     startrev <- wio_lift (revision_of data 0) ;;
     upper <- wio_lift (getindex data 1) ;;
     endrev <- (if is_none upper then wio_ret (JStr "tip")
                else wio_lift (revision_of data 1)) ;;
     startrev <- wio_lift (as_str startrev) ;;
     endrev <- wio_lift (as_str endrev) ;;
     url <- widen (pushlog_for_revs_url lib startrev endrev channel) ;;
     wio_ret (Some url)
   else wio_ret None)%wio.

(** Get the pushlog url for the build containing revision. *)
Definition pushlog_for_rev_url (revision channel product : str)
  : wio (option str) :=
  (data <- wio_ask (GetRevision channel revision)
                   (revision_get_revision lk channel revision) ;;
   pushdates <- wio_lift (getitem data "pushdate") ;;
   ts <- wio_lift (getindex pushdates 0) ;;
   ts <- wio_lift (as_timestamp ts) ;;
   pushlog_for_pushdate_url (get_date_from_timestamp ts) channel product)%wio.

End PushlogByDate.

Definition is_http (q : question) : bool :=
  match q with
  | Asked (HttpGet _ _) => true
  | _ => false
  end.

Definition is_http_event (ev : event) : bool :=
  match ev with
  | HttpGet _ _ => true
  | _ => false
  end.

(** More services to run the module on. *)
Definition build (rev : str) : json := JObj [("revision", JStr rev)].

Definition two_builds : json := JArr [build "aaaaaaaaaaaa"; build "cccccccccccc"].

Definition two_builds_world : world :=
  World (fun _ _ => Return (enc_payload sample_repo))
        (fun _ _ _ => Return two_builds)
        (fun _ _ _ => Return (JArr [])).

Definition stored_builds_world : world :=
  World (fun _ _ => Raise TransportError)
        (fun _ _ _ => Raise TransportError)
        (fun _ _ _ => Return two_builds).

Definition sample_lookups : lookups :=
  Lookups (fun _ _ _ => Return (JArr [build "aaaaaaaaaaaa"; JNull]))
          (fun _ _ =>
             Return (JObj [("pushdate", JArr [JNum 1577836800; JNum 0])])).

(** * Facts *)

Unset Implicit Arguments.

(** ** Results *)

Lemma rbind_raise {X Y : Type} (r : result X) (k : X -> result Y) :
  raised r -> raised (rbind r k).
Proof. intros [e ->]. exists e. reflexivity. Qed.

(** ** Characters *)

Ltac char_unfold :=
  unfold lit_ok, cls_ok, in_items, in_item, iscased, fixes, fold, lower, upper,
    is_upper, is_lower, is_digit, is_blank, is_joiner, digit_value, between,
    dotted_I, dotless_i, long_s, kelvin, tab, newline in *.

(** Case analysis on every comparison of code points in sight. *)
Ltac char_cases :=
  char_unfold;
  repeat (cbn [existsb andb orb negb] in *;
          match goal with
          | |- context [N.eqb ?a ?b] => destruct (N.eqb_spec a b); try lia
          | |- context [N.leb ?a ?b] => destruct (N.leb_spec a b); try lia
          | H : context [N.eqb ?a ?b] |- _ => destruct (N.eqb_spec a b); try lia
          | H : context [N.leb ?a ?b] |- _ => destruct (N.leb_spec a b); try lia
          end);
  cbn [existsb andb orb negb] in *;
  try reflexivity; try discriminate; try lia.

(** Under [re.I] a literal matches the characters that fold to the same
    letter. *)
Lemma lit_ok_fold (fl : flags) (p c : char) :
  ignorecase fl = true -> lit_ok fl p c = N.eqb (fold c) (fold p).
Proof. intros H. unfold lit_ok. rewrite H. char_cases. Qed.

Lemma cls_digit_ok (fl : flags) (c : char) :
  cls_ok fl [Range "0" "9"] c = is_digit c.
Proof. unfold cls_ok. destruct (ignorecase fl); char_cases. Qed.

Lemma cls_blank_ok (fl : flags) (c : char) :
  cls_ok fl [One " "; One tab] c = is_blank c.
Proof. unfold cls_ok. destruct (ignorecase fl); char_cases. Qed.

Lemma cls_joiner_ok (fl : flags) (c : char) :
  cls_ok fl [One " "; One "_"] c = is_joiner c.
Proof. unfold cls_ok. destruct (ignorecase fl); char_cases. Qed.

Lemma cls_underscore_ok (fl : flags) (c : char) :
  cls_ok fl [One "_"] c = N.eqb c "_"%char.
Proof. unfold cls_ok. destruct (ignorecase fl); char_cases. Qed.

Lemma lit_space_ok (fl : flags) (c : char) :
  lit_ok fl " " c = N.eqb c " "%char.
Proof. unfold lit_ok. destruct (ignorecase fl); char_cases. Qed.

Lemma blank_not_digit (c : char) : is_blank c = true -> is_digit c = false.
Proof. intros H. char_cases. Qed.

Lemma fold_idem (c : char) : fold (fold c) = fold c.
Proof. char_cases. Qed.

Lemma fold_joiner (c : char) : is_joiner (fold c) = is_joiner c.
Proof. char_cases. Qed.

Lemma fold_is_space (c : char) : fold c = " "%char -> c = " "%char.
Proof. intros H. char_cases. Qed.

Lemma fold_is_underscore (c : char) : fold c = "_"%char -> c = "_"%char.
Proof. intros H. char_cases. Qed.

Lemma joiner_fold (c : char) : is_joiner c = true -> fold c = c.
Proof. intros H. char_cases. Qed.

Lemma fold_digit (c : char) : is_digit c = true -> fold c = c.
Proof. intros H. char_cases. Qed.

(** The characters that fold to a given lower-case ASCII letter: the
    letter, its upper case, and for "i", "s" and "k" the characters beyond
    ASCII that [re.I] takes for them. *)
Lemma fold_letter (c a : char) :
  is_lower a = true ->
  (fold c = a <->
   c = a \/ c = (a - 32)%N \/
   (a = "i"%char /\ (c = dotted_I \/ c = dotless_i)) \/
   (a = "s"%char /\ c = long_s) \/
   (a = "k"%char /\ c = kelvin)).
Proof.
  intros Ha. split.
  - intros H. char_cases.
  - intros [H|[H|[[H1 [H|H]]|[[H1 H]|[H1 H]]]]]; subst; char_cases.
Qed.

Lemma folds_idem (l : list char) : folds (folds l) = folds l.
Proof.
  unfold folds. rewrite map_map. apply map_ext. intros c. apply fold_idem.
Qed.

Lemma folds_app (l1 l2 : list char) : folds (l1 ++ l2) = folds l1 ++ folds l2.
Proof. apply map_app. Qed.

(** ** Lists of match states *)

Lemma hd_error_app_some {X : Type} (l1 l2 : list X) (x : X) :
  hd_error l1 = Some x -> hd_error (l1 ++ l2) = Some x.
Proof. destruct l1; simpl; [discriminate | trivial]. Qed.

Lemma hd_error_map {X Y : Type} (f : X -> Y) (l : list X) :
  hd_error (map f l) = option_map f (hd_error l).
Proof. destruct l; reflexivity. Qed.

Lemma flat_map_one {X Y : Type} (f : X -> list Y) (x : X) :
  flat_map f [x] = f x.
Proof. simpl. apply app_nil_r. Qed.

(** ** Runs over one class and over a word *)

Lemma take_drop_while (ok : char -> bool) (l : list char) :
  take_while ok l ++ drop_while ok l = l.
Proof.
  induction l as [|c l IH]; simpl; [reflexivity|].
  destruct (ok c); simpl; [now rewrite IH | reflexivity].
Qed.

Lemma forallb_take_while (ok : char -> bool) (l : list char) :
  forallb ok (take_while ok l) = true.
Proof.
  induction l as [|c l IH]; simpl; [reflexivity|].
  destruct (ok c) eqn:E; simpl; [now rewrite E | reflexivity].
Qed.

Lemma drop_while_length (ok : char -> bool) (l : list char) :
  length (drop_while ok l) <= length l.
Proof.
  induction l as [|c l IH]; simpl; [lia|].
  destruct (ok c); simpl; lia.
Qed.

Lemma firstn_drop_while (ok : char -> bool) (l : list char) :
  firstn (length l - length (drop_while ok l)) l = take_while ok l.
Proof.
  induction l as [|c l IH]; [reflexivity|].
  cbn [take_while drop_while]. destruct (ok c) eqn:E.
  - pose proof (drop_while_length ok l) as Hl.
    replace (length (c :: l) - length (drop_while ok l))
      with (S (length l - length (drop_while ok l))) by (cbn [length]; lia).
    cbn [firstn]. now rewrite IH.
  - now rewrite Nat.sub_diag.
Qed.

Lemma take_while_all (ok : char -> bool) (l tail : list char) :
  forallb ok l = true ->
  match tail with c :: _ => ok c = false | [] => True end ->
  take_while ok (l ++ tail) = l /\ drop_while ok (l ++ tail) = tail.
Proof.
  intros Hl Ht. induction l as [|c l IH]; simpl in *.
  - destruct tail as [|c tail]; simpl; [auto|]. now rewrite Ht.
  - apply andb_prop in Hl as [Hc Hl]. rewrite Hc.
    destruct (IH Hl) as [-> ->]. auto.
Qed.

Lemma drop_while_head (ok : char -> bool) (l : list char) :
  match drop_while ok l with c :: _ => ok c = false | [] => True end.
Proof.
  induction l as [|c l IH]; simpl; [exact I|].
  destruct (ok c) eqn:E; [exact IH | exact E].
Qed.

Lemma star_states_cls (body : mstate -> list mstate) (ok : char -> bool) :
  (forall st, body st = step1 ok st) ->
  forall n bef l g,
    length l < n ->
    star_states body n (MState bef l g) = cls_star ok bef l g.
Proof.
  intros Hbody n. induction n as [|n IH]; intros bef l g Hn; [lia|].
  simpl. rewrite Hbody. unfold step1. simpl.
  destruct l as [|c l]; simpl; [reflexivity|].
  destruct (ok c); simpl; [|reflexivity].
  unfold shorter. simpl.
  replace (length l <? S (length l)) with true
    by (symmetry; apply Nat.ltb_lt; lia).
  rewrite app_nil_r. rewrite IH by (simpl in Hn; lia). reflexivity.
Qed.

Lemma run_star_cls (fl : flags) (items : list item) (bef l : list char)
  (g : list (nat * list char)) :
  run fl (Star (Cls items)) (MState bef l g) = cls_star (cls_ok fl items) bef l g.
Proof.
  cbn [run rest].
  apply (@star_states_cls (run fl (Cls items)) (cls_ok fl items)).
  - reflexivity.
  - lia.
Qed.

Lemma hd_cls_star (ok : char -> bool) (l bef : list char)
  (g : list (nat * list char)) :
  hd_error (cls_star ok bef l g)
  = Some (MState (rev (take_while ok l) ++ bef) (drop_while ok l) g).
Proof.
  revert bef. induction l as [|c l IH]; intros bef; simpl; [reflexivity|].
  destruct (ok c); simpl; [|reflexivity].
  rewrite (hd_error_app_some _ _ _ (IH (c :: bef))).
  now rewrite <- app_assoc.
Qed.

Lemma run_word (fl : flags) (p : list char) :
  ignorecase fl = true ->
  forall bef l g,
    run fl (Word p) (MState bef l g)
    = match strip_ci p l with
      | Some l' => [MState (rev (firstn (length p) l) ++ bef) l' g]
      | None => []
      end.
Proof.
  intros Hfl. induction p as [|a p IH]; intros bef l g; [reflexivity|].
  destruct p as [|b p].
  - cbn [Word run strip_ci length firstn]. unfold step1. cbn [rest before groups].
    destruct l as [|c l]; [reflexivity|]. rewrite (lit_ok_fold _ _ _ Hfl).
    destruct (N.eqb (fold c) (fold a)); reflexivity.
  - change (Word (a :: b :: p)) with (Seq (Lit a) (Word (b :: p))).
    cbn [run]. unfold step1 at 1.
    cbn [rest before groups].
    destruct l as [|c l]; [reflexivity|]. rewrite (lit_ok_fold _ _ _ Hfl).
    change (strip_ci (a :: b :: p) (c :: l))
      with (if N.eqb (fold c) (fold a)
            then strip_ci (b :: p) l else None).
    destruct (N.eqb (fold c) (fold a)); [|reflexivity].
    rewrite flat_map_one, IH.
    destruct (strip_ci (b :: p) l); [|reflexivity].
    change (firstn (length (a :: b :: p)) (c :: l))
      with (c :: firstn (length (b :: p)) l).
    simpl rev. now rewrite <- app_assoc.
Qed.

Lemma strip_ci_app (p b tail : list char) :
  folds b = folds p -> strip_ci p (b ++ tail) = Some tail.
Proof.
  revert b. induction p as [|a p IH]; intros b Hb.
  - destruct b; [reflexivity | discriminate].
  - destruct b as [|c b]; [discriminate|].
    simpl in *. injection Hb as Hc Hb. rewrite Hc, N.eqb_refl. auto.
Qed.

Lemma strip_ci_some (p l l' : list char) :
  strip_ci p l = Some l' ->
  exists b, l = b ++ l' /\ folds b = folds p.
Proof.
  revert l. induction p as [|a p IH]; intros l H.
  - simpl in H. injection H as ->. exists []. auto.
  - destruct l as [|c l]; [discriminate|]. simpl in H.
    destruct (N.eqb (fold c) (fold a)) eqn:E; [|discriminate].
    apply N.eqb_eq in E. destruct (IH _ H) as (b & -> & Hb).
    exists (c :: b). simpl. now rewrite E, Hb.
Qed.

(** ** [get_bug] *)

Lemma hd_error_none {X : Type} (l : list X) : hd_error l = None -> l = [].
Proof. destruct l; [trivial | discriminate]. Qed.

Lemma run_cls_step (fl : flags) (items : list item) (ok : char -> bool) :
  (forall c, cls_ok fl items c = ok c) ->
  forall st, run fl (Cls items) st = step1 ok st.
Proof.
  intros H st. cbn [run]. unfold step1. destruct (rest st) as [|c l]; [reflexivity|].
  now rewrite H.
Qed.

Lemma consumed_digits (c : char) (l bef bef' : list char)
  (g g' : list (nat * list char)) :
  consumed (MState bef (c :: l) g) (MState bef' (drop_while is_digit l) g')
  = c :: take_while is_digit l.
Proof.
  unfold consumed. cbn [rest].
  pose proof (drop_while_length is_digit l) as Hl.
  replace (length (c :: l) - length (drop_while is_digit l))
    with (S (length l - length (drop_while is_digit l))) by (cbn [length]; lia).
  cbn [firstn]. now rewrite firstn_drop_while.
Qed.

Lemma run_plus_cls (fl : flags) (items : list item) (ok : char -> bool) :
  (forall c, cls_ok fl items c = ok c) ->
  forall bef l g,
    run fl (Plus (Cls items)) (MState bef l g)
    = match l with
      | c :: l' => if ok c then cls_star ok (c :: bef) l' g else []
      | [] => []
      end.
Proof.
  intros Hok bef l g.
  change (run fl (Plus (Cls items)) (MState bef l g))
    with (flat_map (fun st' => star_states (run fl (Cls items))
                                           (S (length (rest st'))) st')
                   (run fl (Cls items) (MState bef l g))).
  rewrite (@run_cls_step _ _ _ Hok). unfold step1. cbn [rest before groups].
  destruct l as [|c l]; [reflexivity|].
  destruct (ok c); [|reflexivity].
  rewrite flat_map_one. cbn [rest].
  apply (@star_states_cls (run fl (Cls items)) ok (@run_cls_step _ _ _ Hok)).
  lia.
Qed.

Lemma hd_run_digits (fl : flags) (bef l : list char) (g : list (nat * list char)) :
  hd_error (run fl (Grp 1 (Plus (Cls [Range "0" "9"]))) (MState bef l g))
  = match l with
    | c :: l' =>
        if is_digit c
        then Some (MState (rev (take_while is_digit l') ++ c :: bef)
                          (drop_while is_digit l')
                          ((1, c :: take_while is_digit l') :: g))
        else None
    | [] => None
    end.
Proof.
  change (run fl (Grp 1 (Plus (Cls [Range "0" "9"]))) (MState bef l g))
    with (map (capture 1 (MState bef l g))
              (run fl (Plus (Cls [Range "0" "9"])) (MState bef l g))).
  rewrite hd_error_map, (@run_plus_cls _ _ _ (cls_digit_ok fl)).
  destruct l as [|c l]; [reflexivity|].
  destruct (is_digit c); [|reflexivity].
  rewrite hd_cls_star. cbn [option_map]. unfold capture. cbn [before rest groups].
  now rewrite consumed_digits.
Qed.

Lemma hd_digits_after_blanks (fl : flags) (l bef : list char)
  (g : list (nat * list char)) :
  hd_error (flat_map (run fl (Grp 1 (Plus (Cls [Range "0" "9"]))))
                     (cls_star is_blank bef l g))
  = hd_error (run fl (Grp 1 (Plus (Cls [Range "0" "9"])))
                  (MState (rev (take_while is_blank l) ++ bef)
                          (drop_while is_blank l) g)).
Proof.
  revert bef. induction l as [|c l IH]; intros bef.
  - cbn [cls_star take_while drop_while rev app]. now rewrite flat_map_one.
  - cbn [cls_star take_while drop_while]. destruct (is_blank c) eqn:E.
    + rewrite flat_map_app, flat_map_one.
      assert (Hnone : run fl (Grp 1 (Plus (Cls [Range "0" "9"])))
                          (MState bef (c :: l) g) = []).
      { apply hd_error_none. rewrite hd_run_digits.
        now rewrite (blank_not_digit c E). }
      rewrite Hnone, app_nil_r, IH. cbn [rev]. now rewrite <- app_assoc.
    + now rewrite flat_map_one.
Qed.

Lemma cls_star_ext (ok ok' : char -> bool) :
  (forall c, ok c = ok' c) ->
  forall l bef g, cls_star ok bef l g = cls_star ok' bef l g.
Proof.
  intros H l. induction l as [|c l IH]; intros bef g; [reflexivity|].
  cbn [cls_star]. now rewrite H, IH.
Qed.

Lemma search_bug_later (l bef : list char) :
  bef <> [] -> search_from BUG_PAT bef l = None.
Proof.
  revert bef. induction l as [|c l IH]; intros bef Hbef;
    destruct bef as [|b bef]; try congruence; cbn.
  - reflexivity.
  - apply IH. discriminate.
Qed.

Lemma search_bug_start (l : list char) :
  search_from BUG_PAT [] l
  = match strip_ci "bug" l with
    | Some l' =>
        hd_error (run re_I (Grp 1 (Plus (Cls [Range "0" "9"])))
                      (MState (rev (take_while is_blank l')
                                 ++ rev (firstn 3 l) ++ [])
                              (drop_while is_blank l') []))
    | None => None
    end.
Proof.
  assert (Hrun : hd_error (run (pat_flags BUG_PAT) (pat_regex BUG_PAT)
                               (MState [] l []))
                 = match strip_ci "bug" l with
                   | Some l' =>
                       hd_error (run re_I (Grp 1 (Plus (Cls [Range "0" "9"])))
                         (MState (rev (take_while is_blank l')
                                    ++ rev (firstn 3 l) ++ [])
                                 (drop_while is_blank l') []))
                   | None => None
                   end).
  { change (run (pat_flags BUG_PAT) (pat_regex BUG_PAT) (MState [] l []))
      with (flat_map
              (fun st1 =>
                 flat_map
                   (fun st2 =>
                      flat_map (run re_I (Grp 1 (Plus (Cls [Range "0" "9"]))))
                               (run re_I (Star (Cls [One " "; One tab])) st2))
                   (run re_I (Word "bug") st1))
              [MState [] l []]).
    rewrite flat_map_one.
    rewrite (@run_word re_I "bug" eq_refl).
    destruct (strip_ci "bug" l) as [l'|]; [|reflexivity].
    rewrite flat_map_one.
    change (length "bug") with 3.
    rewrite run_star_cls.
    rewrite (@cls_star_ext _ _ (cls_blank_ok re_I)).
    apply hd_digits_after_blanks. }
  destruct l as [|c l]; cbn [search_from].
  - destruct (run (pat_flags BUG_PAT) (pat_regex BUG_PAT) (MState [] [] []));
      exact Hrun.
  - destruct (run (pat_flags BUG_PAT) (pat_regex BUG_PAT) (MState [] (c :: l) []))
      as [|st sts].
    + rewrite <- Hrun. cbn [hd_error]. apply search_bug_later. discriminate.
    + exact Hrun.
Qed.

Lemma get_bug_digits (d : str) :
  get_bug d = match bug_digits d with
              | [] => Return (-1)%Z
              | ds => py_int ds
              end.
Proof.
  unfold get_bug, bug_digits, search. rewrite search_bug_start.
  destruct (strip_ci "bug" d) as [l|]; [|reflexivity].
  rewrite hd_run_digits.
  destruct (drop_while is_blank l) as [|c l']; [reflexivity|].
  cbn [take_while]. destruct (is_digit c) eqn:E; reflexivity.
Qed.

Lemma bug_digits_digits (d : str) : forallb is_digit (bug_digits d) = true.
Proof.
  unfold bug_digits. destruct (strip_ci "bug" d); [|reflexivity].
  apply forallb_take_while.
Qed.

(** [get_bug] gives the number of the leading token, unless its digit run
    is longer than [int] accepts. *)
Lemma get_bug_leading (d : str) :
  get_bug d = if bug_fits d then Return (leading_bug d) else Raise ValueError.
Proof.
  rewrite get_bug_digits. unfold bug_fits, leading_bug.
  pose proof (bug_digits_digits d) as Hd.
  destruct (bug_digits d) as [|c ds]; [reflexivity|].
  unfold py_int. now rewrite Hd.
Qed.

Lemma get_bug_fits (d : str) :
  bug_fits d = true -> get_bug d = Return (leading_bug d).
Proof. intros H. now rewrite get_bug_leading, H. Qed.

Lemma bug_token_leading (d : str) (ds : list char) :
  bug_token d ds <-> bug_digits d = ds /\ ds <> [].
Proof.
  unfold bug_digits. split.
  - intros (b & ws & tail & Hd & Hb & Hws & Hne & Hds & Htail).
    rewrite Hd. rewrite (strip_ci_app "bug" b (ws ++ ds ++ tail) Hb).
    split; [|exact Hne].
    assert (Hdrop : drop_while is_blank (ws ++ ds ++ tail) = ds ++ tail).
    { apply take_while_all; [exact Hws|].
      destruct ds as [|c ds]; [congruence|]. cbn in *.
      apply andb_prop in Hds as [Hc _].
      destruct (is_blank c) eqn:E; [|reflexivity].
      apply blank_not_digit in E. congruence. }
    rewrite Hdrop. now apply take_while_all.
  - intros (Hds & Hne).
    destruct (strip_ci "bug" d) as [l|] eqn:Hstrip; [|congruence].
    destruct (strip_ci_some _ _ _ Hstrip) as (b & Hd & Hb).
    exists b, (take_while is_blank l), (drop_while is_digit (drop_while is_blank l)).
    repeat split.
    + rewrite Hd. f_equal. rewrite <- Hds, take_drop_while.
      now rewrite take_drop_while.
    + exact Hb.
    + apply forallb_take_while.
    + exact Hne.
    + rewrite <- Hds. apply forallb_take_while.
    + apply (drop_while_head is_digit).
Qed.

Lemma digits_value_nonneg (l : list char) (acc : Z) :
  (0 <= acc)%Z -> forallb is_digit l = true -> (0 <= digits_value acc l)%Z.
Proof.
  revert acc. induction l as [|c l IH]; intros acc Hacc Hl; [exact Hacc|].
  cbn [forallb] in Hl. cbn [digits_value].
  apply andb_prop in Hl as [Hc Hl]. apply IH; [|exact Hl].
  assert (0 <= digit_value c)%Z as Hd; [|lia].
  revert Hc. clear. intros Hc. char_cases.
Qed.

(** ** The matcher finds exactly the words of the pattern *)

Lemma star_states_sound (P : list char -> list char -> Prop)
  (body : mstate -> list mstate) :
  (forall st st', In st' (body st) ->
     exists w, rest st = w ++ rest st' /\ before st' = rev w ++ before st /\
               P (before st) w) ->
  forall n st st', In st' (star_states body n st) ->
     exists w, rest st = w ++ rest st' /\ before st' = rev w ++ before st /\
               star_lang P (before st) w.
Proof.
  intros Hbody n. induction n as [|n IH]; intros st st' Hin.
  - destruct Hin as [<-|[]]. exists []. repeat split. constructor.
  - cbn [star_states] in Hin. apply in_app_or in Hin as [Hin|[<-|[]]].
    + apply in_flat_map in Hin as (st1 & H1 & Hin).
      destruct (shorter st1 st) eqn:Hs; [|destruct Hin].
      destruct (Hbody _ _ H1) as (w1 & Hr1 & Hb1 & Hp1).
      destruct (IH _ _ Hin) as (w2 & Hr2 & Hb2 & Hp2).
      exists (w1 ++ w2). split; [|split].
      * now rewrite Hr1, Hr2, app_assoc.
      * now rewrite Hb2, Hb1, rev_app_distr, app_assoc.
      * apply star_lang_round; [exact Hp1| |now rewrite <- Hb1].
        intros ->. unfold shorter in Hs. apply Nat.ltb_lt in Hs.
        rewrite Hr1 in Hs. simpl in Hs. lia.
    + exists []. repeat split. constructor.
Qed.

Lemma step1_sound (ok : char -> bool) (st st' : mstate) :
  In st' (step1 ok st) ->
  exists c, ok c = true /\ rest st = [c] ++ rest st' /\
            before st' = rev [c] ++ before st.
Proof.
  unfold step1. destruct (rest st) as [|c l] eqn:E; [intros []|].
  destruct (ok c) eqn:Hc; [|intros []]. intros [<-|[]]. exists c. auto.
Qed.

Lemma run_sound (fl : flags) (r : regex) :
  forall st st', In st' (run fl r st) ->
    exists w, rest st = w ++ rest st' /\ before st' = rev w ++ before st /\
              lang fl r (before st) w.
Proof.
  induction r as [|p|items| | |r1 IH1 r2 IH2|r1 IH1 r2 IH2|r1 IH1|r1 IH1|r1 IH1|k r1 IH1];
    intros st st' Hin; cbn [run] in Hin; cbn [lang].
  - destruct Hin as [<-|[]]. exists []. auto.
  - apply step1_sound in Hin as (c & Hc & Hr & Hb). exists [c]. eauto.
  - apply step1_sound in Hin as (c & Hc & Hr & Hb). exists [c]. eauto.
  - apply step1_sound in Hin as (c & Hc & Hr & Hb). exists [c]. eauto.
  - destruct (bol_ok fl (before st)) eqn:E; [|destruct Hin].
    destruct Hin as [<-|[]]. exists []. auto.
  - apply in_flat_map in Hin as (st1 & H1 & H2).
    destruct (IH1 _ _ H1) as (w1 & Hr1 & Hb1 & Hl1).
    destruct (IH2 _ _ H2) as (w2 & Hr2 & Hb2 & Hl2).
    exists (w1 ++ w2). split; [|split].
    + now rewrite Hr1, Hr2, app_assoc.
    + now rewrite Hb2, Hb1, rev_app_distr, app_assoc.
    + exists w1, w2. rewrite <- Hb1. auto.
  - apply in_app_or in Hin as [Hin|Hin].
    + destruct (IH1 _ _ Hin) as (w & ? & ? & ?). exists w. auto.
    + destruct (IH2 _ _ Hin) as (w & ? & ? & ?). exists w. auto.
  - apply in_app_or in Hin as [Hin|[<-|[]]].
    + destruct (IH1 _ _ Hin) as (w & ? & ? & ?). exists w. auto.
    + exists []. auto.
  - exact (star_states_sound (lang fl r1) (run fl r1) IH1 _ _ _ Hin).
  - apply in_flat_map in Hin as (st1 & H1 & H2).
    destruct (IH1 _ _ H1) as (w1 & Hr1 & Hb1 & Hl1).
    destruct (star_states_sound (lang fl r1) (run fl r1) IH1 _ _ _ H2)
      as (w2 & Hr2 & Hb2 & Hl2).
    exists (w1 ++ w2). split; [|split].
    + now rewrite Hr1, Hr2, app_assoc.
    + now rewrite Hb2, Hb1, rev_app_distr, app_assoc.
    + exists w1, w2. rewrite <- Hb1. auto.
  - apply in_map_iff in Hin as (st1 & <- & H1).
    destruct (IH1 _ _ H1) as (w & ? & ? & ?). exists w. auto.
Qed.

Lemma star_states_self (body : mstate -> list mstate) (n : nat) (st : mstate) :
  In st (star_states body n st).
Proof.
  destruct n; cbn [star_states]; [now left|].
  apply in_or_app. right. now left.
Qed.

Lemma star_states_complete (P : list char -> list char -> Prop)
  (body : mstate -> list mstate) :
  (forall st w l, P (before st) w -> rest st = w ++ l ->
     exists g, In (MState (rev w ++ before st) l g) (body st)) ->
  forall bef w, star_lang P bef w ->
  forall n st l, before st = bef -> rest st = w ++ l -> length (rest st) < n ->
     exists g, In (MState (rev w ++ bef) l g) (star_states body n st).
Proof.
  intros Hbody bef w Hstar.
  induction Hstar as [bef|bef w1 w2 Hp Hne Hstar IH]; intros n st l Hb Hr Hn.
  - exists (groups st). destruct st as [b r g]. cbn in *. subst.
    apply star_states_self.
  - destruct n as [|n]; [lia|]. subst bef.
    rewrite <- app_assoc in Hr.
    destruct (Hbody st w1 (w2 ++ l) Hp Hr) as (g1 & H1).
    assert (Hlen : length (w2 ++ l) < length (rest st)).
    { rewrite Hr, !length_app. destruct w1; [congruence|]. cbn [length]. lia. }
    destruct (IH n (MState (rev w1 ++ before st) (w2 ++ l) g1) l
                eq_refl eq_refl) as (g2 & H2).
    { cbn [rest]. lia. }
    exists g2. cbn [star_states]. apply in_or_app. left.
    apply in_flat_map. eexists. split; [exact H1|].
    unfold shorter. cbn [rest].
    replace (length (w2 ++ l) <? length (rest st)) with true
      by (symmetry; now apply Nat.ltb_lt).
    now rewrite rev_app_distr, <- app_assoc.
Qed.

Lemma step1_complete (ok : char -> bool) (st : mstate) (c : char)
  (l : list char) :
  ok c = true -> rest st = [c] ++ l ->
  In (MState (rev [c] ++ before st) l (groups st)) (step1 ok st).
Proof.
  intros Hc Hr. unfold step1. rewrite Hr. cbn. rewrite Hc. now left.
Qed.

Lemma run_complete (fl : flags) (r : regex) :
  forall st w l, lang fl r (before st) w -> rest st = w ++ l ->
    exists g, In (MState (rev w ++ before st) l g) (run fl r st).
Proof.
  induction r as [|p|items| | |r1 IH1 r2 IH2|r1 IH1 r2 IH2|r1 IH1|r1 IH1|r1 IH1|k r1 IH1];
    intros st w l Hl Hr; cbn [lang] in Hl; cbn [run].
  - subst w. exists (groups st). destruct st. cbn in *. subst. now left.
  - destruct Hl as (c & -> & Hc). eexists. now apply step1_complete.
  - destruct Hl as (c & -> & Hc). eexists. now apply step1_complete.
  - destruct Hl as (c & -> & Hc). eexists. now apply step1_complete.
  - destruct Hl as [-> Hb]. rewrite Hb. exists (groups st).
    destruct st. cbn in *. subst. now left.
  - destruct Hl as (w1 & w2 & -> & H1 & H2). rewrite <- app_assoc in Hr.
    destruct (IH1 st w1 (w2 ++ l) H1 Hr) as (g1 & Hin1).
    destruct (IH2 (MState (rev w1 ++ before st) (w2 ++ l) g1) w2 l H2 eq_refl)
      as (g2 & Hin2).
    exists g2. apply in_flat_map. eexists. split; [exact Hin1|].
    cbn [before] in Hin2. now rewrite rev_app_distr, <- app_assoc.
  - destruct Hl as [Hl|Hl].
    + destruct (IH1 _ _ _ Hl Hr) as (g & Hin). exists g. apply in_or_app. auto.
    + destruct (IH2 _ _ _ Hl Hr) as (g & Hin). exists g. apply in_or_app. auto.
  - destruct Hl as [Hl| ->].
    + destruct (IH1 _ _ _ Hl Hr) as (g & Hin). exists g. apply in_or_app. auto.
    + exists (groups st). apply in_or_app. right.
      destruct st. cbn in *. subst. now left.
  - apply (@star_states_complete (lang fl r1) (run fl r1) IH1 _ _ Hl
             (S (length (rest st))) st l eq_refl Hr).
    lia.
  - destruct Hl as (w1 & w2 & -> & H1 & H2). rewrite <- app_assoc in Hr.
    destruct (IH1 st w1 (w2 ++ l) H1 Hr) as (g1 & Hin1).
    destruct (@star_states_complete (lang fl r1) (run fl r1) IH1 _ _ H2
                (S (length (w2 ++ l)))
                (MState (rev w1 ++ before st) (w2 ++ l) g1) l eq_refl eq_refl)
      as (g2 & Hin2).
    { cbn [rest]. lia. }
    exists g2. apply in_flat_map. eexists. split; [exact Hin1|].
    cbn [rest]. now rewrite rev_app_distr, <- app_assoc.
  - destruct (IH1 _ _ _ Hl Hr) as (g & Hin).
    eexists. apply in_map_iff. eexists. split; [|exact Hin]. reflexivity.
Qed.

(** [pattern.match] finds a match exactly when the text begins with a word
    of the pattern. *)
Lemma match_some_iff (p : pattern) (s : str) :
  (exists m, match_ p s = Some m) <->
  exists w tail, s = w ++ tail /\ lang (pat_flags p) (pat_regex p) [] w.
Proof.
  unfold match_. split.
  - intros (m & Hm).
    destruct (run (pat_flags p) (pat_regex p) (MState [] s []))
      as [|st sts] eqn:E; [discriminate|].
    injection Hm as <-.
    destruct (@run_sound (pat_flags p) (pat_regex p)
                (MState [] s []) st) as (w & Hr & _ & Hl).
    { rewrite E. now left. }
    exists w, (rest st). auto.
  - intros (w & tail & Hs & Hl).
    destruct (@run_complete (pat_flags p) (pat_regex p)
                (MState [] s []) w tail Hl Hs) as (g & Hin).
    destruct (run (pat_flags p) (pat_regex p) (MState [] s []))
      as [|st sts]; [destruct Hin|]. now exists st.
Qed.

(** ** [is_backed_out] *)

Lemma lang_word (fl : flags) (p : list char) :
  ignorecase fl = true ->
  forall bef w, lang fl (Word p) bef w <-> folds w = folds p.
Proof.
  intros Hfl. induction p as [|a p IH]; intros bef w.
  - cbn. split; [now intros ->|]. apply map_eq_nil.
  - destruct p as [|b p].
    + cbn [Word lang]. split.
      * intros (c & -> & Hc). rewrite (lit_ok_fold _ _ _ Hfl) in Hc.
        apply N.eqb_eq in Hc. cbn. now rewrite Hc.
      * intros H. destruct w as [|c [|c' w]]; try discriminate.
        injection H as H. exists c. split; [reflexivity|].
        rewrite (lit_ok_fold _ _ _ Hfl). now apply N.eqb_eq.
    + change (Word (a :: b :: p)) with (Seq (Lit a) (Word (b :: p))).
      cbn [lang]. split.
      * intros (w1 & w2 & -> & (c & -> & Hc) & H2).
        apply IH in H2. rewrite (lit_ok_fold _ _ _ Hfl) in Hc.
        apply N.eqb_eq in Hc.
        rewrite folds_app, H2. unfold folds at 1. cbn [map app].
        now rewrite Hc.
      * intros H. destruct w as [|c w]; [discriminate|].
        unfold folds in H. cbn [map] in H. injection H as Hc Hw.
        exists [c], w. split; [reflexivity|]. split.
        -- exists c. split; [reflexivity|].
           rewrite (lit_ok_fold _ _ _ Hfl). now apply N.eqb_eq.
        -- now apply IH.
Qed.

Lemma lang_W (fl : flags) (s : str) (bef w : list char) :
  ignorecase fl = true -> folds s = s ->
  (lang fl (Word s) bef w <-> folds w = s).
Proof.
  intros Hfl Hs. rewrite (lang_word fl s Hfl). now rewrite Hs.
Qed.

Lemma star_lang_cls (fl : flags) (items : list item) (ok : char -> bool) :
  (forall c, cls_ok fl items c = ok c) ->
  forall bef w,
    star_lang (lang fl (Cls items)) bef w <-> forallb ok w = true.
Proof.
  intros Hok bef w. split.
  - intros H. induction H as [bef|bef w1 w2 (c & -> & Hc) _ _ IH]; [reflexivity|].
    cbn. now rewrite <- Hok, Hc.
  - revert bef. induction w as [|c w IH]; intros bef H; [constructor|].
    cbn in H. apply andb_prop in H as [Hc Hw].
    change (c :: w) with ([c] ++ w). apply star_lang_round.
    + exists c. split; [reflexivity|]. now rewrite Hok.
    + discriminate.
    + now apply IH.
Qed.

Lemma folds_joiners (w : list char) :
  forallb is_joiner w = true -> folds w = w.
Proof.
  unfold folds. induction w as [|c w IH]; [reflexivity|].
  cbn [forallb map]. intros H.
  apply andb_prop in H as [Hc Hw]. now rewrite (joiner_fold c Hc), (IH Hw).
Qed.

Lemma joiners_folds (w : list char) :
  forallb is_joiner (folds w) = forallb is_joiner w.
Proof.
  unfold folds. induction w as [|c w IH]; [reflexivity|].
  cbn [forallb map]. now rewrite fold_joiner, IH.
Qed.

Lemma folds_nil (w : list char) : folds w = [] -> w = [].
Proof. apply map_eq_nil. Qed.

Lemma folds_underscore (w : list char) :
  folds w = "_" -> w = "_".
Proof.
  destruct w as [|c [|c' w]]; try discriminate. unfold folds. cbn [map].
  intros H. injection H as H. now rewrite (fold_is_underscore c H).
Qed.

Ltac word_facts :=
  repeat match goal with
  | H : lang _ (Word ?s) ?b ?w |- _ =>
      apply (proj1 (lang_W re_I_S s b w eq_refl eq_refl)) in H
  end.

Lemma lang_verb (bef v : list char) :
  lang re_I_S verb_re bef v <-> backout_verb v.
Proof.
  unfold verb_re. cbn [lang]. split.
  - intros [(w1 & r1 & -> & H1 & w2 & r2 & -> & H2 & w3 & r3 & -> & H3 &
             w4 & w5 & -> & H4 & H5) | (w1 & w2 & -> & H1 & H2)].
    + left. exists (folds w2), w3, (folds w5).
      apply (proj1 (star_lang_cls _ _ _ (cls_joiner_ok re_I_S) _ _)) in H3.
      word_facts. repeat split.
      * destruct H2 as [[H2|[H2|H2]]| ->]; word_facts; rewrite ?H2; cbn; auto 10.
      * exact H3.
      * destruct H5 as [(c & -> & Hc)| ->]; [|cbn; auto].
        rewrite cls_underscore_ok in Hc. apply N.eqb_eq in Hc. subst c.
        cbn. auto.
      * rewrite !folds_app, H1, H4. now rewrite (folds_joiners _ H3).
    + right. exists (folds w2). word_facts. split.
      * destruct H2 as [[H2|H2]| ->]; word_facts; rewrite ?H2; cbn; auto 10.
      * now rewrite folds_app, H1.
  - intros [(suffix & joiners & underscore & Hs & Hj & Hu & Hv) | (suffix & Hs & Hv)].
    + left.
      apply map_eq_app in Hv as (v1 & r1 & -> & H1 & Hv).
      apply map_eq_app in Hv as (v2 & r2 & -> & H2 & Hv).
      apply map_eq_app in Hv as (v3 & r3 & -> & H3 & Hv).
      apply map_eq_app in Hv as (v4 & v5 & -> & H4 & H5).
      exists v1, (v2 ++ v3 ++ v4 ++ v5). split; [reflexivity|]. split.
      { now apply lang_W. }
      exists v2, (v3 ++ v4 ++ v5). split; [reflexivity|]. split.
      { subst suffix. destruct Hs as [Hs|[Hs|[Hs|[Hs|[]]]]].
        - right. now apply folds_nil.
        - left. left. now apply lang_W.
        - left. right. left. now apply lang_W.
        - left. right. right. now apply lang_W. }
      exists v3, (v4 ++ v5). split; [reflexivity|]. split.
      { apply (star_lang_cls _ _ _ (cls_joiner_ok re_I_S)).
        subst joiners. now rewrite <- joiners_folds. }
      exists v4, v5. split; [reflexivity|]. split.
      { now apply lang_W. }
      subst underscore. destruct Hu as [Hu|[Hu|[]]].
      * right. now apply folds_nil.
      * left. symmetry in Hu. apply folds_underscore in Hu. subst v5.
        exists "_"%char. split; [reflexivity|]. now rewrite cls_underscore_ok.
    + right.
      apply map_eq_app in Hv as (v1 & v2 & -> & H1 & H2).
      exists v1, v2. split; [reflexivity|]. split.
      { now apply lang_W. }
      subst suffix. destruct Hs as [Hs|[Hs|[Hs|[]]]].
      * right. now apply folds_nil.
      * left. left. now apply lang_W.
      * left. right. now apply lang_W.
Qed.

Lemma is_backed_out_true (d : str) :
  is_backed_out d = true <-> exists m, match_ BACKOUT_PAT d = Some m.
Proof.
  unfold is_backed_out. destruct (match_ BACKOUT_PAT d) as [m|].
  - split; eauto.
  - split; [discriminate|]. intros (m & Hm). discriminate.
Qed.

(** [is_backed_out] holds exactly for the descriptions that begin with a
    verb form followed by a space. *)
Lemma is_backed_out_announces (d : str) :
  is_backed_out d = true <-> announces_backout d.
Proof.
  rewrite is_backed_out_true, match_some_iff.
  change (pat_flags BACKOUT_PAT) with re_I_S.
  change (pat_regex BACKOUT_PAT)
    with (Seq Bol (Seq verb_re (Seq (Lit " ") noun_re))).
  unfold announces_backout. split.
  - intros (w & tail & Hd & Hl). cbn [lang] in Hl.
    destruct Hl as (w0 & r0 & -> & (-> & _) & v & r1 & -> & Hv &
                    w2 & w3 & -> & (c & -> & Hc) & _).
    apply lang_verb in Hv. rewrite lit_space_ok in Hc.
    apply N.eqb_eq in Hc. subst c.
    exists v, (w3 ++ tail). split; [exact Hv|].
    rewrite Hd. cbn [app]. now rewrite <- !app_assoc.
  - intros (v & tail & Hv & Hd).
    exists (v ++ [" "%char]), tail. split.
    { rewrite Hd. now rewrite <- app_assoc. }
    cbn [lang]. exists [], (v ++ [" "%char]). split; [reflexivity|].
    split; [split; reflexivity|].
    exists v, [" "%char]. split; [reflexivity|]. split.
    { now apply lang_verb. }
    exists [" "%char], []. split; [reflexivity|]. split.
    + exists " "%char. split; [reflexivity|]. now rewrite lit_space_ok.
    + unfold noun_re. cbn [lang]. now right.
Qed.

(** ** The claims on the two description classifiers *)

Lemma backout_verb_folds (v vl : list char) :
  folds v = vl -> backout_verb vl -> backout_verb v.
Proof.
  intros <- [(s & j & u & Hs & Hj & Hu & Hv)|(s & Hs & Hv)];
    rewrite folds_idem in Hv.
  - left. exists s, j, u. auto.
  - right. exists s. auto.
Qed.

Lemma begins_with_announces (p d : str) (vl rl : list char) :
  folds p = vl ++ " "%char :: rl ->
  backout_verb vl ->
  begins_with p d -> announces_backout d.
Proof.
  intros Hp Hverb (q & tail & -> & Hq). rewrite Hp in Hq.
  apply map_eq_app in Hq as (v & r & Hqv & Hv & Hr).
  apply map_eq_cons in Hr as (c & r' & -> & Hc & _).
  apply fold_is_space in Hc. subst c.
  exists v, (r' ++ tail). split.
  - exact (backout_verb_folds v vl Hv Hverb).
  - rewrite Hqv. now rewrite <- app_assoc.
Qed.

Lemma verb_backed_out : backout_verb "backed out".
Proof.
  left. exists "ed", [" "%char], []. cbn. auto 10.
Qed.

Lemma verb_backing_out : backout_verb "backing out".
Proof.
  left. exists "ing", [" "%char], []. cbn. auto 10.
Qed.

Lemma verb_reverts : backout_verb "reverts".
Proof. right. exists "s". cbn. auto 10. Qed.

Lemma verb_revert : backout_verb "revert".
Proof. right. exists []. cbn. auto 10. Qed.

Lemma begins_with_self (p : str) : begins_with p p.
Proof. exists p, []. split; [now rewrite app_nil_r | reflexivity]. Qed.

(** *** Bug numbers too long for [int] *)

Lemma take_while_repeat (ok : char -> bool) (c : char) (n : nat) :
  ok c = true -> take_while ok (repeat c n) = repeat c n.
Proof.
  intros H. induction n as [|n IH]; [reflexivity|].
  cbn [repeat take_while]. now rewrite H, IH.
Qed.

Lemma drop_while_repeat (ok : char -> bool) (c : char) (n : nat) :
  ok c = false -> drop_while ok (repeat c n) = repeat c n.
Proof.
  intros H. destruct n as [|n]; [reflexivity|].
  cbn [repeat drop_while]. now rewrite H.
Qed.

(** The digit run of "bug " followed by [n] times the digit 1. *)
Lemma bug_digits_ones (n : nat) :
  bug_digits ("bug " ++ repeat "1"%char n) = repeat "1"%char n.
Proof.
  change (bug_digits ("bug " ++ repeat "1"%char n))
    with (take_while is_digit
            (drop_while is_blank (" "%char :: repeat "1"%char n))).
  change (drop_while is_blank (" "%char :: repeat "1"%char n))
    with (drop_while is_blank (repeat "1"%char n)).
  rewrite drop_while_repeat by reflexivity.
  now apply take_while_repeat.
Qed.

Lemma bug_fits_ones (n : nat) :
  bug_fits ("bug " ++ repeat "1"%char n) = (n <=? int_max_str_digits).
Proof. unfold bug_fits. now rewrite bug_digits_ones, repeat_length. Qed.

Lemma long_bug_raises :
  get_bug ("bug " ++ repeat "1"%char (S int_max_str_digits)) = Raise ValueError.
Proof.
  rewrite get_bug_leading, bug_fits_ones.
  replace (S int_max_str_digits <=? int_max_str_digits) with false;
    [reflexivity|].
  symmetry. apply Nat.leb_gt. apply Nat.lt_succ_diag_r.
Qed.

(** C2 as the claim states it fails: the description "bug " followed by
    4301 times the digit 1 opens with a bug token, and [get_bug] raises
    [ValueError] on it, so it returns no integer. *)
Lemma get_bug_long_number_counterexample :
  bug_token ("bug " ++ repeat "1"%char 4301) (repeat "1"%char 4301) /\
  get_bug ("bug " ++ repeat "1"%char 4301) = Raise ValueError /\
  forall n, get_bug ("bug " ++ repeat "1"%char 4301) <> Return n.
Proof.
  change 4301 with (S int_max_str_digits).
  split; [|split].
  - apply bug_token_leading. split; [apply bug_digits_ones | discriminate].
  - exact long_bug_raises.
  - intros n H. rewrite long_bug_raises in H. discriminate H.
Qed.

(** C2, amended.  When the description opens with a bug token ("bug" in
    any case, blanks, digits) whose digit run has at most 4300 digits,
    [get_bug] gives the number written by the run, a number that is never
    negative; when the run is longer, [int] refuses it and [get_bug] raises
    [ValueError]; [get_bug] gives -1 for every description that does not
    open with such a token; so it returns an integer or raises
    [ValueError].  A description that opens with "bug 12345" and goes on
    with no further digit gives 12345. *)
Theorem get_bug_leading_token :
  (forall d ds, bug_token d ds -> length ds <= int_max_str_digits ->
     get_bug d = Return (digits_value 0 ds) /\ (0 <= digits_value 0 ds)%Z) /\
  (forall d ds, bug_token d ds -> int_max_str_digits < length ds ->
     get_bug d = Raise ValueError) /\
  (forall d, (forall ds, ~ bug_token d ds) -> get_bug d = Return (-1)%Z) /\
  (forall d, (exists n, get_bug d = Return n) \/ get_bug d = Raise ValueError) /\
  (forall tail, no_digit_ahead tail ->
     get_bug ("bug 12345" ++ tail) = Return 12345%Z).
Proof.
  assert (Htoken : forall d ds, bug_token d ds ->
            length ds <= int_max_str_digits ->
            get_bug d = Return (digits_value 0 ds) /\ (0 <= digits_value 0 ds)%Z).
  { intros d ds Ht Hlen.
    pose proof Ht as (b & ws & tail & _ & _ & _ & _ & Hds & _).
    apply bug_token_leading in Ht as (Hrun & Hne).
    split; [|apply digits_value_nonneg; [lia | exact Hds]].
    rewrite get_bug_leading. unfold bug_fits, leading_bug. rewrite Hrun.
    apply Nat.leb_le in Hlen. rewrite Hlen.
    destruct ds; [congruence | reflexivity]. }
  split; [exact Htoken|]. split; [|split; [|split]].
  - intros d ds Ht Hlen. apply bug_token_leading in Ht as (Hrun & _).
    rewrite get_bug_leading. unfold bug_fits. rewrite Hrun.
    apply Nat.leb_gt in Hlen. now rewrite Hlen.
  - intros d Hnone. rewrite get_bug_digits.
    destruct (bug_digits d) as [|c ds] eqn:Hrun; [reflexivity|].
    exfalso. apply (Hnone (c :: ds)). apply bug_token_leading.
    split; [exact Hrun | discriminate].
  - intros d. rewrite get_bug_leading. destruct (bug_fits d); eauto.
  - intros tail Htail.
    apply (Htoken ("bug 12345" ++ tail) "12345").
    + exists "bug", [" "%char], tail.
      repeat split; try reflexivity; [discriminate | exact Htail].
    + unfold int_max_str_digits. cbn [length]. lia.
Qed.

Lemma get_bug_leading_token_witness :
  get_bug "Bug 555: fix" = Return 555%Z /\
  get_bug "fix for bug 12" = Return (-1)%Z.
Proof.
  split.
  - apply (proj1 get_bug_leading_token "Bug 555: fix" "555").
    + exists "Bug", [" "%char], ": fix".
      repeat split; try reflexivity. discriminate.
    + unfold int_max_str_digits. cbn [length]. lia.
  - apply (proj1 (proj2 (proj2 get_bug_leading_token)) "fix for bug 12").
    intros ds Ht. apply bug_token_leading in Ht as (Hrun & Hne).
    apply Hne. rewrite <- Hrun. reflexivity.
Defined.

(** C3 as the claim states it fails: "Backed out" and "REVERTS" begin with
    themselves, and [is_backed_out] is false for both. *)
Lemma is_backed_out_bare_verb_counterexample :
  (begins_with "Backed out" "Backed out" /\ is_backed_out "Backed out" = false) /\
  (begins_with "REVERTS" "REVERTS" /\ is_backed_out "REVERTS" = false).
Proof.
  repeat split; try reflexivity; apply begins_with_self.
Qed.

(** C3, amended.  [is_backed_out] is true exactly for the descriptions that
    begin with a verb form and a space right after it, the letters of the
    verb in any case as [re.I] compares them: a letter stands for its two
    cases, and the Kelvin sign for "k", long s for "s", dotted capital I
    and dotless i for "i" (so "BacK out 1" with the Kelvin sign is a
    backout).  So it is true for every description that begins with
    "Backed out ", "backing out changeset", "REVERTS " or "revert of
    revision", false for "this reverts nothing important", and it always
    gives a boolean. *)
Theorem is_backed_out_anchored :
  (forall d, is_backed_out d = true <-> announces_backout d) /\
  is_backed_out ("Bac" ++ [kelvin] ++ " out 1") = true /\
  (forall d, begins_with "Backed out " d -> is_backed_out d = true) /\
  (forall d, begins_with "backing out changeset" d -> is_backed_out d = true) /\
  (forall d, begins_with "REVERTS " d -> is_backed_out d = true) /\
  (forall d, begins_with "revert of revision" d -> is_backed_out d = true) /\
  is_backed_out "this reverts nothing important" = false /\
  (forall d, is_backed_out d = true \/ is_backed_out d = false).
Proof.
  split; [exact is_backed_out_announces|].
  split; [reflexivity|].
  repeat split.
  - intros d H. apply is_backed_out_announces.
    exact (begins_with_announces "Backed out " d "backed out" []
             eq_refl verb_backed_out H).
  - intros d H. apply is_backed_out_announces.
    exact (begins_with_announces "backing out changeset" d "backing out"
             "changeset" eq_refl verb_backing_out H).
  - intros d H. apply is_backed_out_announces.
    exact (begins_with_announces "REVERTS " d "reverts" []
             eq_refl verb_reverts H).
  - intros d H. apply is_backed_out_announces.
    exact (begins_with_announces "revert of revision" d "revert"
             "of revision" eq_refl verb_revert H).
  - intros d. destruct (is_backed_out d); auto.
Qed.

Lemma is_backed_out_anchored_witness :
  is_backed_out "BACKED OUT 3 changesets (bug 1)" = true.
Proof.
  apply (proj1 (proj2 (proj2 is_backed_out_anchored))).
  exists "BACKED OUT ", "3 changesets (bug 1)".
  split; reflexivity.
Defined.

(** C10.  When no verb form at the start of the description has a space
    right after it, [is_backed_out] is false: so for "REVERTS", for
    "revert" and for "Reverted changeset abcd".  A verb form is one that
    the pattern takes for it under [re.I]: "revertIng" written with the
    dotted capital I is one, and with a space after it the description is
    a backout. *)
Theorem is_backed_out_needs_space :
  (forall d,
     (forall v tail tail',
        backout_verb v -> d = v ++ tail -> tail <> " "%char :: tail') ->
     is_backed_out d = false) /\
  is_backed_out "REVERTS" = false /\
  is_backed_out "revert" = false /\
  is_backed_out "Reverted changeset abcd" = false /\
  backout_verb ("revert" ++ [dotted_I] ++ "ng") /\
  is_backed_out ("revert" ++ [dotted_I] ++ "ng x") = true /\
  is_backed_out ("revert" ++ [dotted_I] ++ "ng") = false.
Proof.
  split; [|repeat split; try reflexivity;
           right; exists "ing"; split; [cbn; auto | reflexivity]].
  intros d Hno. destruct (is_backed_out d) eqn:E; [|reflexivity].
  apply is_backed_out_announces in E as (v & tail & Hv & Hd).
  exfalso. exact (Hno v (" "%char :: tail) tail Hv Hd eq_refl).
Qed.

Lemma is_backed_out_needs_space_witness :
  is_backed_out "Reverted changeset abcd" = false.
Proof.
  apply (proj1 is_backed_out_needs_space).
  intros v tail tail' Hv Hd ->.
  assert (H : is_backed_out "Reverted changeset abcd" = true).
  { apply is_backed_out_announces. exists v, tail'. auto. }
  discriminate H.
Defined.

(** ** [collect] on a well-shaped payload *)

Section CollectFacts.

Context {A : Type}.
Variable lib : library A.
Variable file_filter : str -> bool.

Lemma field_some {Y : Type} (k : str) (view : json -> option Y)
  (kv : list (str * json)) (y : Y) :
  field k view kv = Some y -> exists v, assoc k kv = Some v /\ view v = Some y.
Proof.
  unfold field. destruct (assoc k kv) as [v|]; [eauto | discriminate].
Qed.

Lemma view_text_some (v : json) (s : str) : view_text v = Some s -> v = JStr s.
Proof. destruct v; try discriminate. now intros [= ->]. Qed.

Lemma view_texts_some (v : json) (l : list str) :
  view_texts v = Some l -> exists js, v = JArr js /\ traverse view_text js = Some l.
Proof. destruct v; try discriminate. eauto. Qed.

Lemma traverse_length {X Y : Type} (f : X -> option Y) (l : list X) (ys : list Y) :
  traverse f l = Some ys -> length l = length ys.
Proof.
  revert ys. induction l as [|x l IH]; intros ys; cbn.
  - now intros [= <-].
  - destruct (f x); [|discriminate]. destruct (traverse f l); [|discriminate].
    intros [= <-]. cbn. now rewrite (IH _ eq_refl).
Qed.

Lemma traverse_cons {X Y : Type} (f : X -> option Y) (x : X) (l : list X)
  (ys : list Y) :
  traverse f (x :: l) = Some ys ->
  exists y ys', ys = y :: ys' /\ f x = Some y /\ traverse f l = Some ys'.
Proof.
  cbn. destruct (f x) as [y|]; [|discriminate].
  destruct (traverse f l) as [ys'|]; [|discriminate].
  intros [= <-]. eauto.
Qed.

Lemma filter_files_texts (js : list json) (fs : list str) :
  traverse view_text js = Some fs ->
  filter_files file_filter js = Return (filter file_filter fs).
Proof.
  revert fs. induction js as [|j js IH]; intros fs H.
  - injection H as <-. reflexivity.
  - apply traverse_cons in H as (f & fs' & -> & Hf & Hfs).
    apply view_text_some in Hf. subst j. cbn. rewrite (IH _ Hfs). cbn.
    destruct (file_filter f); reflexivity.
Qed.

Lemma classify_view (pushdate : Z) (changesets : list raw_changeset)
  (j : json) (c : raw_changeset) :
  view_changeset j = Some c ->
  classify lib file_filter (get_date_from_timestamp pushdate) j
  = if bug_fits (cs_desc c)
    then Return (classified lib file_filter (PushGroup pushdate changesets) c)
    else Raise ValueError.
Proof.
  destruct j as [| | | |l|kv]; try discriminate. cbn [view_changeset].
  destruct (field "node" view_text kv) as [n|] eqn:Hn; [|discriminate].
  destruct (field "desc" view_text kv) as [d|] eqn:Hd; [|discriminate].
  destruct (field "author" view_text kv) as [a|] eqn:Ha; [|discriminate].
  destruct (field "parents" view_texts kv) as [ps|] eqn:Hp; [|discriminate].
  destruct (field "files" view_texts kv) as [fs|] eqn:Hf; [|discriminate].
  intros [= <-].
  apply field_some in Hn as (vn & Hn & Hvn). apply view_text_some in Hvn.
  apply field_some in Hd as (vd & Hd & Hvd). apply view_text_some in Hvd.
  apply field_some in Ha as (va & Ha & Hva). apply view_text_some in Hva.
  apply field_some in Hp as (vp & Hp & Hvp).
  apply view_texts_some in Hvp as (jp & -> & Hjp).
  apply field_some in Hf as (vf & Hf & Hvf).
  apply view_texts_some in Hvf as (jf & -> & Hjf).
  subst. unfold classify, getitem. rewrite Hf, Hd, Ha, Hn, Hp.
  cbn [rbind iterate as_str py_len]. rewrite (filter_files_texts _ _ Hjf).
  cbn [rbind cs_desc]. rewrite get_bug_leading.
  destruct (bug_fits d); [|reflexivity]. cbn [rbind].
  unfold classified. cbn [pg_date cs_node cs_desc cs_author cs_parents cs_files].
  now rewrite (traverse_length _ _ _ Hjp).
Qed.

Lemma collect_changesets_view (pushdate : Z) (changesets : list raw_changeset)
  (js : list json) (cs : list raw_changeset) :
  traverse view_changeset js = Some cs ->
  forall res,
    collect_changesets lib file_filter (get_date_from_timestamp pushdate) js res
    = if forallb (fun c => bug_fits (cs_desc c)) cs
      then Return (res ++ map (classified lib file_filter
                                 (PushGroup pushdate changesets)) cs)
      else Raise ValueError.
Proof.
  revert cs. induction js as [|j js IH]; intros cs H res.
  - injection H as <-. cbn. now rewrite app_nil_r.
  - apply traverse_cons in H as (c & cs' & -> & Hc & Hcs).
    cbn [collect_changesets forallb].
    rewrite (classify_view pushdate changesets _ _ Hc).
    destruct (bug_fits (cs_desc c)); [|reflexivity].
    cbn [rbind andb]. rewrite (IH _ Hcs).
    destruct (forallb _ cs'); [|reflexivity].
    cbn [map]. now rewrite <- app_assoc.
Qed.

Lemma open_push_view (j : json) (g : push_group) :
  view_group j = Some g ->
  exists js, open_push j = Return (get_date_from_timestamp (pg_date g), js) /\
             traverse view_changeset js = Some (pg_changesets g).
Proof.
  destruct j as [| | | |l|kv]; try discriminate. cbn [view_group].
  destruct (field "date" view_number kv) as [d|] eqn:Hd; [|discriminate].
  destruct (field "changesets" view_changesets kv) as [cs|] eqn:Hc; [|discriminate].
  intros [= <-].
  apply field_some in Hd as (vd & Hd & Hvd).
  apply field_some in Hc as (vc & Hc & Hvc).
  destruct vd; try discriminate. injection Hvd as ->.
  destruct vc as [| | | |js|]; try discriminate. cbn in Hvc.
  exists js. unfold open_push, getitem. rewrite Hd, Hc. cbn. auto.
Qed.

Lemma collect_pushes_view (js : list json) (groups : list push_group) :
  traverse view_group js = Some groups ->
  forall res,
    collect_pushes lib file_filter js res
    = if bugs_fit groups
      then Return (res ++ classified_all lib file_filter groups)
      else Raise ValueError.
Proof.
  revert groups. induction js as [|j js IH]; intros groups H res.
  - injection H as <-. cbn. now rewrite app_nil_r.
  - apply traverse_cons in H as (g & gs & -> & Hg & Hgs).
    destruct (open_push_view _ _ Hg) as (cs & Hopen & Hcs).
    cbn [collect_pushes]. rewrite Hopen. cbn [rbind fst snd].
    rewrite (collect_changesets_view (pg_date g) (pg_changesets g) _ _ Hcs).
    unfold bugs_fit. cbn [forallb]. unfold group_fits at 1.
    destruct (forallb _ (pg_changesets g)); [|reflexivity].
    cbn [rbind andb]. rewrite (IH _ Hgs). unfold bugs_fit.
    destruct (forallb group_fits gs); [|reflexivity].
    unfold classified_all. cbn [flat_map]. rewrite <- app_assoc.
    destruct g. reflexivity.
Qed.

(** [collect] on a well-shaped payload returns the records the
    specification asks, group after group and changeset after changeset,
    when [int] accepts every bug number; else it raises [ValueError]. *)
Lemma collect_view (data : json) (groups : list push_group) :
  view_payload data = Some groups ->
  collect lib data file_filter
  = if bugs_fit groups
    then Return (classified_all lib file_filter groups)
    else Raise ValueError.
Proof.
  destruct data as [| | | |l|kv]; try discriminate. cbn [view_payload].
  intros H. apply field_some in H as (v & Hv & Hgroups).
  destruct v as [| | | |l|ps]; try discriminate. cbn in Hgroups.
  unfold collect, getitem. rewrite Hv. cbn [rbind values].
  now rewrite (collect_pushes_view _ _ Hgroups).
Qed.

Lemma collect_view_fits (data : json) (groups : list push_group) :
  view_payload data = Some groups -> bugs_fit groups = true ->
  collect lib data file_filter = Return (classified_all lib file_filter groups).
Proof. intros Hview Hfit. now rewrite (collect_view _ _ Hview), Hfit. Qed.

Lemma traverse_map_id {X Y : Type} (enc : Y -> X) (view : X -> option Y) :
  (forall y, view (enc y) = Some y) ->
  forall ys, traverse view (map enc ys) = Some ys.
Proof.
  intros H ys. induction ys as [|y ys IH]; [reflexivity|].
  cbn. now rewrite H, IH.
Qed.

Lemma view_enc_changeset (c : raw_changeset) :
  view_changeset (enc_changeset c) = Some c.
Proof.
  destruct c as [n d a ps fs]. unfold enc_changeset, view_changeset, field.
  cbn [assoc str_eqb N.eqb Pos.eqb andb cs_node cs_desc cs_author cs_parents
       cs_files view_text view_texts].
  now rewrite !(traverse_map_id JStr view_text (fun s => eq_refl)).
Qed.

Lemma view_enc_group (g : push_group) : view_group (enc_group g) = Some g.
Proof.
  destruct g as [d cs]. unfold enc_group, view_group, field.
  cbn [assoc str_eqb N.eqb Pos.eqb andb pg_date pg_changesets view_number
       view_changesets].
  now rewrite (traverse_map_id enc_changeset view_changeset view_enc_changeset).
Qed.

Lemma view_enc_payload (pushes : list (str * push_group)) :
  view_payload (enc_payload pushes) = Some (map snd pushes).
Proof.
  unfold enc_payload, view_payload, field.
  cbn [assoc str_eqb N.eqb Pos.eqb andb view_groups].
  rewrite map_map. cbn [snd].
  rewrite <- (map_map snd enc_group).
  apply (traverse_map_id enc_group view_group view_enc_group).
Qed.

End CollectFacts.

(** ** [collect] on a payload that misses a key *)

Section CollectFailures.

Context {A : Type}.
Variable lib : library A.
Variable file_filter : str -> bool.

Lemma rbind_raised_later {X Y : Type} (r : result X) (k : X -> result Y) :
  (forall x, raised (k x)) -> raised (rbind r k).
Proof. intros H. destruct r as [x|e]; [apply H | now exists e]. Qed.

Lemma getitem_lacks (k : str) (v : json) :
  lacks k v -> raised (getitem v k).
Proof.
  intros (kv & -> & Hk). unfold getitem. rewrite Hk. eexists. reflexivity.
Qed.

Ltac raise_at H :=
  repeat first
    [ apply rbind_raise; exact (getitem_lacks _ _ H)
    | apply rbind_raised_later; intro ].

Lemma classify_lacks (pushdate : datetime) (c : json) :
  changeset_lacks_key c -> raised (classify lib file_filter pushdate c).
Proof.
  intros (k & Hk & Hlacks). unfold classify.
  destruct Hk as [<-|[<-|[<-|[<-|[<-|[]]]]]]; raise_at Hlacks.
Qed.

Lemma collect_changesets_raises (pushdate : datetime) (c : json)
  (cs : list json) :
  In c cs -> raised (classify lib file_filter pushdate c) ->
  forall res, raised (collect_changesets lib file_filter pushdate cs res).
Proof.
  intros Hin Hc. induction cs as [|c' cs IH]; [destruct Hin|]. intros res.
  cbn [collect_changesets]. destruct Hin as [->|Hin].
  - now apply rbind_raise.
  - apply rbind_raised_later. intros p. now apply IH.
Qed.

Lemma open_push_lacks (g : json) :
  lacks "date" g \/ lacks "changesets" g -> raised (open_push g).
Proof.
  unfold open_push. intros [H|H]; raise_at H.
Qed.

Lemma open_push_changesets (kv : list (str * json)) (cs : list json)
  (pushdate : datetime) (cs' : list json) :
  assoc "changesets" kv = Some (JArr cs) ->
  open_push (JObj kv) = Return (pushdate, cs') -> cs' = cs.
Proof.
  intros Hcs. unfold open_push, getitem. rewrite Hcs.
  destruct (assoc "date" kv) as [d|]; [|discriminate]. cbn [rbind].
  destruct (as_timestamp d); [|discriminate]. cbn. now intros [= _ <-].
Qed.

Lemma push_raises (g : json) (pushes : list json) (res : list (Push A)) :
  group_lacks_key g ->
  raised (collect_pushes lib file_filter (g :: pushes) res).
Proof.
  intros Hg. cbn [collect_pushes].
  destruct Hg as [H|[H|(kv & cs & c & -> & Hcs & Hin & Hc)]].
  - apply rbind_raise, open_push_lacks. now left.
  - apply rbind_raise, open_push_lacks. now right.
  - destruct (open_push (JObj kv)) as [[pushdate cs']|e] eqn:Hopen;
      [|now exists e].
    cbn [rbind fst snd]. apply rbind_raise.
    rewrite (open_push_changesets _ _ _ _ Hcs Hopen).
    apply (collect_changesets_raises pushdate c cs Hin).
    now apply classify_lacks.
Qed.

Lemma collect_pushes_raises (g : json) (pushes : list json) :
  In g pushes -> group_lacks_key g ->
  forall res, raised (collect_pushes lib file_filter pushes res).
Proof.
  intros Hin Hg. induction pushes as [|g' pushes IH]; [destruct Hin|].
  intros res. destruct Hin as [->|Hin]; [now apply push_raises|].
  cbn [collect_pushes]. apply rbind_raised_later. intros dc.
  apply rbind_raised_later. intros res'. now apply IH.
Qed.

(** C7.  On a payload that misses the key "pushes", or has a push group
    that misses "date" or "changesets", or a changeset that misses one of
    "files", "desc", "author", "node" and "parents", [collect] raises: it
    returns no list, neither a partial nor an empty one. *)
Theorem collect_raises_on_missing_key (data : json) :
  payload_lacks_key data ->
  raised (collect lib data file_filter) /\
  forall recs, collect lib data file_filter <> Return recs.
Proof.
  intros H.
  assert (Hr : raised (collect lib data file_filter)).
  { unfold collect. destruct H as [H|(kv & groups & g & -> & Hp & Hin & Hg)].
    - apply rbind_raise. now apply getitem_lacks.
    - unfold getitem. rewrite Hp. cbn [rbind values].
      now apply (collect_pushes_raises g). }
  split; [exact Hr|]. intros recs Heq. destruct Hr as (e & He). congruence.
Qed.

End CollectFailures.

(** ** The calls of [collect] and the store *)

Section CollectStore.

Context {A : Type}.
Variable lib : library A.
Variable file_filter : str -> bool.

Lemma update_length (a : address) (f : list (Push A) -> list (Push A))
  (s : store (A := A)) :
  length (update a f s) = length s.
Proof.
  revert a. induction s as [|l s IH]; intros a; [reflexivity|].
  destruct a as [|a]; cbn [update length]; [reflexivity|]. now rewrite IH.
Qed.

Lemma read_update_other (a a' : address) (f : list (Push A) -> list (Push A))
  (s : store (A := A)) :
  a' <> a -> read (update a f s) a' = read s a'.
Proof.
  unfold read. revert a a'. induction s as [|l s IH]; intros a a' Hne;
    [reflexivity|].
  destruct a as [|a], a' as [|a']; cbn [update nth]; try reflexivity;
    try congruence.
  apply IH. congruence.
Qed.

Lemma read_update_same (a : address) (f : list (Push A) -> list (Push A))
  (s : store (A := A)) :
  a < length s -> read (update a f s) a = f (read s a).
Proof.
  unfold read. revert a. induction s as [|l s IH]; intros a Ha;
    [cbn in Ha; lia|].
  destruct a as [|a]; cbn [update nth]; [reflexivity|].
  apply IH. cbn in Ha. lia.
Qed.

(** The inner loop changes the list at [res] only, and changes it as
    [collect_changesets] says. *)
Lemma append_changesets_store (pushdate : datetime) (cs : list json)
  (res : address) :
  forall s : store (A := A), res < length s ->
    length (snd (append_changesets lib file_filter pushdate cs res s)) = length s /\
    (forall a, a <> res ->
       read (snd (append_changesets lib file_filter pushdate cs res s)) a
       = read s a) /\
    match collect_changesets lib file_filter pushdate cs (read s res) with
    | Return l =>
        fst (append_changesets lib file_filter pushdate cs res s) = Return tt /\
        read (snd (append_changesets lib file_filter pushdate cs res s)) res = l
    | Raise e =>
        fst (append_changesets lib file_filter pushdate cs res s) = Raise e
    end.
Proof.
  induction cs as [|c cs IH]; intros s Hres.
  - cbn. auto.
  - cbn [append_changesets collect_changesets]. unfold proc_bind, proc_lift.
    destruct (classify lib file_filter pushdate c) as [p|e]; [|cbn; auto].
    cbn [rbind]. unfold list_append.
    destruct (IH (update res (fun l => l ++ [p]) s)) as (Hlen & Hframe & Hval).
    { now rewrite update_length. }
    rewrite (read_update_same _ _ _ Hres) in Hval.
    rewrite update_length in Hlen. split; [exact Hlen|]. split; [|exact Hval].
    intros a Ha. rewrite (Hframe a Ha). now apply read_update_other.
Qed.

(** So does the outer loop, as [collect_pushes] says. *)
Lemma append_pushes_store (pushes : list json) (res : address) :
  forall s : store (A := A), res < length s ->
    length (snd (append_pushes lib file_filter pushes res s)) = length s /\
    (forall a, a <> res ->
       read (snd (append_pushes lib file_filter pushes res s)) a = read s a) /\
    match collect_pushes lib file_filter pushes (read s res) with
    | Return l =>
        fst (append_pushes lib file_filter pushes res s) = Return tt /\
        read (snd (append_pushes lib file_filter pushes res s)) res = l
    | Raise e =>
        fst (append_pushes lib file_filter pushes res s) = Raise e
    end.
Proof.
  induction pushes as [|g pushes IH]; intros s Hres.
  - cbn. auto.
  - cbn [append_pushes collect_pushes]. unfold proc_bind, proc_lift.
    destruct (open_push g) as [[pushdate cs]|e]; [|cbn; auto].
    cbn [rbind fst snd].
    destruct (append_changesets_store pushdate cs res s Hres)
      as (Hlen1 & Hframe1 & Hval1).
    destruct (append_changesets lib file_filter pushdate cs res s) as [r1 s1].
    cbn [fst snd] in *.
    destruct (collect_changesets lib file_filter pushdate cs (read s res))
      as [l1|e1].
    + destruct Hval1 as [-> Hread1]. cbn [rbind].
      destruct (IH s1) as (Hlen2 & Hframe2 & Hval2); [lia|].
      rewrite Hread1 in Hval2. split; [lia|]. split; [|exact Hval2].
      intros a Ha. now rewrite (Hframe2 a Ha), (Hframe1 a Ha).
    + rewrite Hval1. cbn. auto.
Qed.

Lemma read_new (s : store (A := A)) (l : list (Push A)) (a : address) :
  (a < length s -> read (s ++ [l]) a = read s a) /\
  read (s ++ [l]) (length s) = l.
Proof.
  unfold read. split.
  - intros Ha. now apply app_nth1.
  - rewrite app_nth2 by lia. now rewrite Nat.sub_diag.
Qed.

(** A call of [collect] makes one list object, at an address that was not
    in use, changes no other, and leaves in it what the function [collect]
    computes. *)
Lemma collect_call_store (data : json) (s : store (A := A)) :
  length (snd (collect_call lib data file_filter s)) = S (length s) /\
  (forall a, a < length s ->
     read (snd (collect_call lib data file_filter s)) a = read s a) /\
  match collect lib data file_filter with
  | Return l =>
      fst (collect_call lib data file_filter s) = Return (length s) /\
      read (snd (collect_call lib data file_filter s)) (length s) = l
  | Raise e => fst (collect_call lib data file_filter s) = Raise e
  end.
Proof.
  assert (Hnew : length (s ++ [[]]) = S (length s))
    by (rewrite length_app; cbn; lia).
  unfold collect_call, collect, new_list, proc_bind, proc_lift, proc_ret.
  destruct (getitem data "pushes") as [v|e].
  2:{ cbn [rbind fst snd]. split; [exact Hnew|]. split; [|reflexivity].
      intros a Ha. now apply read_new. }
  cbn [rbind]. destruct (values v) as [pushes|e].
  2:{ cbn [rbind fst snd]. split; [exact Hnew|]. split; [|reflexivity].
      intros a Ha. now apply read_new. }
  cbn [rbind].
  destruct (append_pushes_store pushes (length s) (s ++ [[]]))
    as (Hlen & Hframe & Hval); [lia|].
  rewrite (proj2 (read_new s [] 0)) in Hval.
  destruct (append_pushes lib file_filter pushes (length s) (s ++ [[]]))
    as [r s1].
  cbn [fst snd] in *.
  assert (Hold : forall a, a < length s -> read s1 a = read s a).
  { intros a Ha. rewrite (Hframe a) by lia. now apply read_new. }
  destruct (collect_pushes lib file_filter pushes []) as [l|e].
  - destruct Hval as [-> Hread]. cbn [fst snd]. split; [lia|]. auto.
  - rewrite Hval. cbn [fst snd]. split; [lia|]. auto.
Qed.

Lemma output_collect_call (data : json) (s : store (A := A)) :
  output (collect_call lib data file_filter s) = collect lib data file_filter.
Proof.
  destruct (collect_call_store data s) as (_ & _ & Hval). unfold output.
  destruct (collect lib data file_filter) as [l|e].
  - destruct Hval as [-> ->]. reflexivity.
  - now rewrite Hval.
Qed.

(** C9.  Two calls of [collect] on the same payload, the second in the
    store that the first has left, give the caller the same: the same
    records in the same order, or the same exception.  What a call gives
    does not depend on the store it starts in, and is what the function
    [collect] computes from the payload and the filter alone.  A call
    changes no list that was there before it: the list it returns is a new
    object each time, and the second call leaves the list of the first as
    it was. *)
Theorem collect_no_hidden_state (data : json) (s : store (A := A)) :
  output (collect_call lib data file_filter
            (snd (collect_call lib data file_filter s)))
  = output (collect_call lib data file_filter s) /\
  (forall s',
     output (collect_call lib data file_filter s')
     = output (collect_call lib data file_filter s)) /\
  output (collect_call lib data file_filter s) = collect lib data file_filter /\
  (forall a, a < length s ->
     read (snd (collect_call lib data file_filter
                  (snd (collect_call lib data file_filter s)))) a
     = read s a) /\
  (forall a1 a2,
     fst (collect_call lib data file_filter s) = Return a1 ->
     fst (collect_call lib data file_filter
            (snd (collect_call lib data file_filter s))) = Return a2 ->
     a1 <> a2 /\
     read (snd (collect_call lib data file_filter
                  (snd (collect_call lib data file_filter s)))) a1
     = read (snd (collect_call lib data file_filter s)) a1).
Proof.
  split; [now rewrite !output_collect_call|].
  split; [intros s'; now rewrite !output_collect_call|].
  split; [apply output_collect_call|].
  destruct (collect_call_store data s) as (Hlen1 & Hframe1 & Hval1).
  destruct (collect_call_store data (snd (collect_call lib data file_filter s)))
    as (Hlen2 & Hframe2 & Hval2).
  split.
  - intros a Ha. rewrite Hframe2 by lia. now apply Hframe1.
  - intros a1 a2 H1 H2.
    destruct (collect lib data file_filter) as [l|e].
    + destruct Hval1 as [Hr1 _]. destruct Hval2 as [Hr2 _].
      rewrite Hr1 in H1. rewrite Hr2 in H2.
      injection H1 as <-. injection H2 as <-.
      split; [lia|]. apply Hframe2. lia.
    + rewrite Hval1 in H1. discriminate H1.
Qed.

End CollectStore.

(** ** The claims on [collect] over a well-shaped payload *)

Section CollectClaims.

Context {A : Type}.
Variable lib : library A.

Lemma classified_fields (file_filter : str -> bool) (g : push_group)
  (cs : list raw_changeset) :
  forallb (fun c => bug_fits (cs_desc c)) cs = true ->
  Forall2
    (fun c r =>
       files r = filter file_filter (cs_files c) /\
       merge r = (1 <? length (cs_parents c))%nat /\
       backedout r = is_backed_out (cs_desc c) /\
       get_bug (cs_desc c) = Return (bug r) /\
       author r = analyze_author lib (cs_author c))
    cs (map (classified lib file_filter g) cs).
Proof.
  induction cs as [|c cs IH]; intros Hfit; [constructor|].
  cbn [forallb] in Hfit. apply andb_prop in Hfit as [Hc Hcs].
  cbn [map]. constructor; [|exact (IH Hcs)].
  unfold classified. cbn [files merge backedout bug author].
  repeat split. now apply get_bug_fits.
Qed.

Lemma classified_all_fields (file_filter : str -> bool)
  (groups : list push_group) :
  bugs_fit groups = true ->
  Forall2
    (fun c r =>
       files r = filter file_filter (cs_files c) /\
       merge r = (1 <? length (cs_parents c))%nat /\
       backedout r = is_backed_out (cs_desc c) /\
       get_bug (cs_desc c) = Return (bug r) /\
       author r = analyze_author lib (cs_author c))
    (flat_map pg_changesets groups)
    (classified_all lib file_filter groups).
Proof.
  unfold bugs_fit. induction groups as [|g groups IH]; intros Hfit;
    [constructor|].
  cbn [forallb] in Hfit. apply andb_prop in Hfit as [Hg Hgs].
  unfold classified_all. cbn [flat_map].
  apply Forall2_app; [|exact (IH Hgs)].
  now apply classified_fields.
Qed.

(** C5, amended.  For a well-shaped payload in which every bug number has
    4300 digits at most, and any file filter, [collect] returns one record
    for each changeset, whose files are the changeset's files that pass
    the filter, whose merge flag says that there is more than one parent,
    whose backedout flag is [is_backed_out] of the description, whose bug
    is [get_bug] of the description and whose author is the author
    classifier's answer on the raw author.  For a well-shaped payload with
    a longer bug number [collect] raises [ValueError].  On the payload of
    the scenario the two records are a merge with bug 555 that is no
    backout, and a backout with bug -1 that is no merge. *)
Theorem collect_classifies :
  (forall data file_filter groups,
     view_payload data = Some groups ->
     bugs_fit groups = true ->
     exists recs,
       collect lib data file_filter = Return recs /\
       Forall2
         (fun c r =>
            files r = filter file_filter (cs_files c) /\
            merge r = (1 <? length (cs_parents c))%nat /\
            backedout r = is_backed_out (cs_desc c) /\
            get_bug (cs_desc c) = Return (bug r) /\
            author r = analyze_author lib (cs_author c))
         (flat_map pg_changesets groups) recs) /\
  (forall data file_filter groups,
     view_payload data = Some groups ->
     bugs_fit groups = false ->
     collect lib data file_filter = Raise ValueError) /\
  (forall file_filter,
     exists r1 r2,
       collect lib scenario_payload file_filter = Return [r1; r2] /\
       (merge r1 = true /\ bug r1 = 555%Z /\ backedout r1 = false) /\
       (merge r2 = false /\ bug r2 = (-1)%Z /\ backedout r2 = true)).
Proof.
  split; [|split].
  - intros data file_filter groups Hview Hfit.
    exists (classified_all lib file_filter groups). split.
    + now apply collect_view_fits.
    + now apply classified_all_fields.
  - intros data file_filter groups Hview Hfit.
    now rewrite (collect_view lib file_filter _ _ Hview), Hfit.
  - intros file_filter.
    pose proof (collect_view_fits lib file_filter scenario_payload _
                  eq_refl eq_refl) as H.
    do 2 eexists. split; [exact H|]. repeat split.
Qed.

(** C6, amended.  For a well-shaped payload in which every bug number has
    4300 digits at most, [collect] returns the records in the order of the
    push groups of the ["pushes"] object and, inside a group, in the order
    of its changesets; each record carries the date made from the
    timestamp of its own group. *)
Theorem collect_keeps_order :
  forall data file_filter groups,
    view_payload data = Some groups ->
    bugs_fit groups = true ->
    exists recs,
      collect lib data file_filter = Return recs /\
      map (fun r => (date r, node r)) recs
      = flat_map
          (fun g => map (fun c => (get_date_from_timestamp (pg_date g),
                                   short_rev lib (cs_node c)))
                        (pg_changesets g))
          groups.
Proof.
  intros data file_filter groups Hview Hfit.
  exists (classified_all lib file_filter groups). split.
  - now apply collect_view_fits.
  - clear Hview Hfit. induction groups as [|g groups IH]; [reflexivity|].
    unfold classified_all in *. cbn [flat_map]. rewrite map_app, IH. f_equal.
    rewrite map_map. reflexivity.
Qed.

End CollectClaims.

Lemma long_bug_unfit (groups : list (str * push_group)) :
  bugs_fit (map snd (groups ++ long_bug_repo)) = false.
Proof.
  unfold bugs_fit. rewrite map_app, forallb_app.
  replace (forallb group_fits (map snd long_bug_repo)) with false;
    [apply andb_false_r|].
  unfold long_bug_repo, group_fits, long_bug_changeset, sample_changeset.
  cbn [map snd forallb pg_changesets cs_desc].
  rewrite bug_fits_ones.
  replace (S int_max_str_digits <=? int_max_str_digits) with false;
    [reflexivity|].
  symmetry. apply Nat.leb_gt. apply Nat.lt_succ_diag_r.
Qed.

(** C5 as the claim states it fails: the payload of one push with one
    changeset whose description is "bug " and 4301 times the digit 1 is
    well shaped, and [collect] raises [ValueError] on it: it has no record
    for the changeset. *)
Lemma collect_long_bug_counterexample :
  view_payload (enc_payload long_bug_repo) = Some (map snd long_bug_repo) /\
  length (cs_desc long_bug_changeset) = 4305 /\
  collect sample_library (enc_payload long_bug_repo) (fun _ => true)
  = Raise ValueError.
Proof.
  split; [apply view_enc_payload|]. split.
  - unfold long_bug_changeset, sample_changeset. cbn [cs_desc].
    rewrite length_app, repeat_length. reflexivity.
  - rewrite (collect_view sample_library (fun _ => true) _ _
               (view_enc_payload long_bug_repo)).
    pose proof (long_bug_unfit []) as Hfit. cbn [app] in Hfit.
    now rewrite Hfit.
Qed.

(** C6 as the claim states it fails: after the three pushes of the sample
    a fourth, with a bug number of 4301 digits, makes a well-shaped payload
    on which [collect] returns no sequence at all. *)
Lemma collect_order_long_bug_counterexample :
  view_payload (enc_payload (sample_repo ++ long_bug_repo))
  = Some (map snd (sample_repo ++ long_bug_repo)) /\
  forall recs,
    collect sample_library (enc_payload (sample_repo ++ long_bug_repo))
            (fun _ => true)
    <> Return recs.
Proof.
  split; [apply view_enc_payload|]. intros recs.
  rewrite (collect_view sample_library (fun _ => true) _ _
             (view_enc_payload (sample_repo ++ long_bug_repo))).
  rewrite (long_bug_unfit sample_repo). discriminate.
Qed.

Lemma collect_classifies_witness :
  exists recs,
    collect sample_library scenario_payload (fun _ => true) = Return recs /\
    length recs = 2.
Proof.
  destruct (proj1 (collect_classifies sample_library) scenario_payload
              (fun _ => true) _ eq_refl eq_refl) as (recs & Hc & Hall).
  exists recs. split; [exact Hc|].
  rewrite <- (Forall2_length Hall). reflexivity.
Defined.

Lemma collect_keeps_order_witness :
  exists recs,
    collect sample_library (enc_payload (rev sample_repo)) (fun _ => true)
    = Return recs /\
    map (fun r => (date r, node r)) recs
    = [(1577923200000000%Z, "cccccccccccc");
       (1577880000000000%Z, "bbbbbbbbbbbb");
       (1577836800000000%Z, "aaaaaaaaaaaa")].
Proof.
  destruct (collect_keeps_order sample_library (enc_payload (rev sample_repo))
              (fun _ => true) _ eq_refl eq_refl) as (recs & Hc & Hord).
  exists recs. split; [exact Hc | exact Hord].
Defined.

Lemma collect_raises_on_missing_key_witness :
  raised (collect sample_library
            (JObj [("pushes", JObj [("7", JObj [("date", JNum 0)])])])
            (fun _ => true)).
Proof.
  apply (collect_raises_on_missing_key sample_library (fun _ => true)).
  right. do 3 eexists. split; [reflexivity|]. split; [reflexivity|].
  split; [left; reflexivity|].
  right. left. eexists. split; reflexivity.
Defined.

Lemma collect_no_hidden_state_witness :
  0 <> 1 /\
  read (snd (collect_call sample_library scenario_payload (fun _ => true)
               (snd (collect_call sample_library scenario_payload
                       (fun _ => true) [])))) 0
  = read (snd (collect_call sample_library scenario_payload (fun _ => true) []))
         0.
Proof.
  apply (proj2 (proj2 (proj2 (proj2
           (collect_no_hidden_state sample_library (fun _ => true)
              scenario_payload [])))) 0 1); reflexivity.
Defined.

(** Two calls in a row need not give the same: with a list kept between
    the calls, the second call on the scenario gives four records where
    the first gave two. *)
Lemma kept_list_is_hidden_state :
  output (collect_call_kept sample_library 0 scenario_payload (fun _ => true)
            (snd (collect_call_kept sample_library 0 scenario_payload
                    (fun _ => true) [[]])))
  <> output (collect_call_kept sample_library 0 scenario_payload
               (fun _ => true) [[]]).
Proof.
  intros H.
  apply (f_equal (fun r => match r with
                           | Return l => length l
                           | Raise _ => 0
                           end)) in H.
  vm_compute in H. discriminate H.
Qed.

(** ** The entry points *)

Section EntryPoints.

Context {A : Type}.
Variable lib : library A.

Lemma json_pushes_url_value (channel : str) :
  json_pushes_url lib channel = Return (get_repo_url lib channel ++ "/json-pushes").
Proof.
  unfold json_pushes_url. cbn [format rbind N.eqb Pos.eqb]. reflexivity.
Qed.

(** C8.  [pushlog_for_revs_url] returns the base URL of the channel's
    repository followed by "/pushloghtml?fromchange=", the start revision,
    "&tochange=" and the end revision; it asks no service: the log of
    questions is left as it was, whatever the services are. *)
Theorem pushlog_for_revs_url_format :
  forall (startrev endrev channel : str) (log : list event),
    pushlog_for_revs_url lib startrev endrev channel log
    = (Return (get_repo_url lib channel ++ "/pushloghtml?fromchange="
                 ++ startrev ++ "&tochange=" ++ endrev),
       log).
Proof.
  intros startrev endrev channel log.
  unfold pushlog_for_revs_url, io_lift. cbn [format rbind N.eqb Pos.eqb].
  now rewrite app_nil_r.
Qed.

Variable w : world.

Lemma pushlog_request (startdate enddate : datetime) (channel : str)
  (file_filter : str -> bool) (log : list event) :
  pushlog lib w startdate enddate channel file_filter log
  = (rbind (requests_get w (get_repo_url lib channel ++ "/json-pushes")
              [("startdate",
                JStr (strftime lib (startdate - relativedelta_seconds 1)%Z
                               "%Y-%m-%d %H:%M:%S"));
               ("enddate",
                JStr (strftime lib (enddate + relativedelta_seconds 1)%Z
                               "%Y-%m-%d %H:%M:%S"));
               ("version", JNum 2); ("full", JNum 1)])
           (fun r => collect lib r file_filter),
     app log [HttpGet (get_repo_url lib channel ++ "/json-pushes")
               [("startdate",
                 JStr (strftime lib (startdate - relativedelta_seconds 1)%Z
                                "%Y-%m-%d %H:%M:%S"));
                ("enddate",
                 JStr (strftime lib (enddate + relativedelta_seconds 1)%Z
                                "%Y-%m-%d %H:%M:%S"));
                ("version", JNum 2); ("full", JNum 1)]]).
Proof.
  unfold pushlog, io_bind, io_lift, http_get_json, ask.
  rewrite json_pushes_url_value.
  destruct (requests_get w _ _); reflexivity.
Qed.



End EntryPoints.


(** ** Correlation by build id *)

Section BuildId.

Context {A : Type}.
Variable lib : library A.
Variable http : str -> list (str * json) -> result json.

Lemma revision_of_single (b : json) : revision_of (JArr [b]) 1 = Raise IndexError.
Proof. reflexivity. Qed.

(** C1.  When the build lookups find no build, [pushlog_for_buildid] and
    [pushlog_for_buildid_url] return [None] and raise nothing.  When the
    remote lookup finds exactly one build, both raise; with a build that
    carries its revision the exception is [IndexError], from reading the
    second build of a list of one. *)
Theorem pushlog_for_buildid_single_build :
  forall (b : json) (rev buildid channel product : str)
         (file_filter : str -> bool) (log : list event),
    fst (pushlog_for_buildid lib (lookup_world http (JArr []) (JArr []))
           buildid channel product file_filter log) = Return None /\
    fst (pushlog_for_buildid_url lib (lookup_world http (JArr []) (JArr []))
           buildid channel product log) = Return None /\
    raised (fst (pushlog_for_buildid lib (lookup_world http (JArr [b]) (JArr []))
                   buildid channel product file_filter log)) /\
    raised (fst (pushlog_for_buildid_url lib
                   (lookup_world http (JArr [b]) (JArr []))
                   buildid channel product log)) /\
    fst (pushlog_for_buildid lib
           (lookup_world http (JArr [JObj [("revision", JStr rev)]])
                         (JArr []))
           buildid channel product file_filter log) = Raise IndexError /\
    fst (pushlog_for_buildid_url lib
           (lookup_world http (JArr [JObj [("revision", JStr rev)]])
                         (JArr [JObj [("revision", JStr rev)]]))
           buildid channel product log) = Raise IndexError.
Proof.
  intros b rev buildid channel product file_filter log.
  split; [reflexivity|]. split; [reflexivity|]. split; [|split].
  - unfold pushlog_for_buildid, lookup_world, io_bind, io_lift, ask.
    cbn [buildhub_get_two_last truthy].
    destruct (revision_of (JArr [b]) 0) as [r|e]; cbn [fst].
    + rewrite revision_of_single. cbn. eexists. reflexivity.
    + eexists. reflexivity.
  - unfold pushlog_for_buildid_url, lookup_world, io_bind, io_lift, ask, io_ret.
    cbn [models_get_two_last buildhub_get_two_last py_len length Nat.eqb negb
         truthy].
    destruct (revision_of (JArr [b]) 0) as [r|e]; cbn [fst].
    + rewrite revision_of_single. cbn. eexists. reflexivity.
    + eexists. reflexivity.
  - split; reflexivity.
Qed.

End BuildId.

(** * More on the module *)

(** ** The two description classifiers together *)

Lemma verb_head (v : list char) :
  backout_verb v ->
  exists c1 c2 v',
    v = c1 :: c2 :: v' /\
    ((fold c1 = "b"%char /\ fold c2 = "a"%char) \/
     (fold c1 = "r"%char /\ fold c2 = "e"%char)).
Proof.
  unfold backout_verb, folds.
  intros [(s & j & u & _ & _ & _ & H)|(s & _ & H)];
    destruct v as [|c1 [|c2 v']]; try discriminate H;
    cbn in H; injection H as H1 H2 _; exists c1, c2, v'; auto.
Qed.

Lemma strip_bug_first (c : char) (l : list char) :
  fold c <> "b"%char -> strip_ci "bug" (c :: l) = None.
Proof.
  intros H.
  change (strip_ci "bug" (c :: l))
    with (if N.eqb (fold c) "b"%char then strip_ci "ug" l else None).
  destruct (N.eqb_spec (fold c) "b"%char); [contradiction|].
  reflexivity.
Qed.

Lemma strip_bug_second (c1 c2 : char) (l : list char) :
  fold c2 <> "u"%char -> strip_ci "bug" (c1 :: c2 :: l) = None.
Proof.
  intros H.
  change (strip_ci "bug" (c1 :: c2 :: l))
    with (if N.eqb (fold c1) "b"%char
          then if N.eqb (fold c2) "u"%char then strip_ci "g" l else None
          else None).
  destruct (N.eqb (fold c1) "b"%char); [|reflexivity].
  destruct (N.eqb_spec (fold c2) "u"%char); [contradiction|]. reflexivity.
Qed.

(** X1.  A description that [is_backed_out] accepts has no bug for
    [get_bug]: the two patterns cannot both match at the start. *)
Theorem backout_has_no_bug (d : str) :
  is_backed_out d = true -> get_bug d = Return (-1)%Z.
Proof.
  intros H. apply is_backed_out_announces in H as (v & tail & Hv & Hd).
  apply verb_head in Hv as (c1 & c2 & v' & -> & Hc).
  rewrite get_bug_digits. unfold bug_digits. rewrite Hd.
  cbn [app]. rewrite strip_bug_second; [reflexivity|].
  destruct Hc as [[_ ->]|[_ ->]]; discriminate.
Qed.

Lemma backout_has_no_bug_witness :
  get_bug "Backed out changeset abcd1234 (bug 555)" = Return (-1)%Z.
Proof. apply backout_has_no_bug. reflexivity. Defined.

Lemma strip_ci_stop (p l t : list char) (c : char) :
  ~ In (fold c) (folds p) ->
  strip_ci p (l ++ c :: t) = option_map (fun r => r ++ c :: t) (strip_ci p l).
Proof.
  revert l. induction p as [|a p IH]; intros l Hc; [reflexivity|].
  destruct l as [|x l]; cbn [app strip_ci option_map].
  - destruct (N.eqb_spec (fold c) (fold a)) as [E|_]; [|reflexivity].
    exfalso. apply Hc. left. now symmetry.
  - destruct (N.eqb (fold x) (fold a)); [|reflexivity].
    apply IH. intros Hin. apply Hc. now right.
Qed.

Lemma drop_while_stop (ok : char -> bool) (l t : list char) (c : char) :
  ok c = false -> drop_while ok (l ++ c :: t) = drop_while ok l ++ c :: t.
Proof.
  intros Hc. induction l as [|x l IH]; cbn [app drop_while].
  - now rewrite Hc.
  - destruct (ok x); [exact IH | reflexivity].
Qed.

Lemma take_while_stop (ok : char -> bool) (l t : list char) (c : char) :
  ok c = false -> take_while ok (l ++ c :: t) = take_while ok l.
Proof.
  intros Hc. induction l as [|x l IH]; cbn [app take_while].
  - now rewrite Hc.
  - destruct (ok x); [now rewrite IH | reflexivity].
Qed.

Lemma split_before (c : char) (p : list char) :
  ~ In c p ->
  forall l1 l2 q, l1 ++ c :: l2 = p ++ q ->
    exists r, l1 = p ++ r /\ q = r ++ c :: l2.
Proof.
  induction p as [|a p IH]; intros Hc l1 l2 q H.
  - exists l1. auto.
  - destruct l1 as [|x l1]; cbn in H.
    + injection H as -> _. exfalso. apply Hc. now left.
    + injection H as -> H. destruct (IH (fun Hin => Hc (or_intror Hin)) _ _ _ H)
        as (r & -> & ->).
      exists r. auto.
Qed.

Lemma verb_no_newline (v : list char) : backout_verb v -> ~ In newline v.
Proof.
  intros Hv Hin.
  assert (Hl : In newline (folds v)).
  { unfold folds. change newline with (fold newline). now apply in_map. }
  destruct Hv as [(s & j & u & Hs & Hj & Hu & H)|(s & Hs & H)]; rewrite H in Hl.
  - repeat (apply in_app_or in Hl as [Hl|Hl]).
    + cbn in Hl. repeat (destruct Hl as [Hl|Hl]; [discriminate Hl|]). exact Hl.
    + cbn in Hs. repeat (destruct Hs as [<-|Hs]; [cbn in Hl|]);
        repeat (destruct Hl as [Hl|Hl]; [discriminate Hl|]); auto.
    + rewrite forallb_forall in Hj. specialize (Hj _ Hl). discriminate Hj.
    + cbn in Hl. repeat (destruct Hl as [Hl|Hl]; [discriminate Hl|]). exact Hl.
    + cbn in Hu. repeat (destruct Hu as [<-|Hu]; [cbn in Hl|]);
        repeat (destruct Hl as [Hl|Hl]; [discriminate Hl|]); auto.
  - apply in_app_or in Hl as [Hl|Hl].
    + cbn in Hl. repeat (destruct Hl as [Hl|Hl]; [discriminate Hl|]). exact Hl.
    + cbn in Hs. repeat (destruct Hs as [<-|Hs]; [cbn in Hl|]);
        repeat (destruct Hl as [Hl|Hl]; [discriminate Hl|]); auto.
Qed.

(** X2.  Both classifiers look at the first line only: whatever follows a
    line break changes neither the backout flag nor the bug number (the
    patterns are compiled without [re.M], and no part of them matches a
    line break). *)
Theorem classifiers_read_first_line (d1 d2 : str) :
  is_backed_out (d1 ++ newline :: d2) = is_backed_out d1 /\
  get_bug (d1 ++ newline :: d2) = get_bug d1.
Proof.
  split.
  - assert (Hiff : announces_backout (d1 ++ newline :: d2)
                   <-> announces_backout d1).
    { unfold announces_backout. split.
      - intros (v & tail & Hv & Hd).
        change (v ++ " "%char :: tail) with (v ++ [" "%char] ++ tail) in Hd.
        rewrite app_assoc in Hd.
        assert (Hnot : ~ In newline (v ++ [" "%char])).
        { intros Hin. apply in_app_or in Hin as [Hin|[Hin|[]]].
          - exact (verb_no_newline v Hv Hin).
          - discriminate Hin. }
        destruct (split_before newline (v ++ [" "%char]) Hnot _ _ _ Hd)
          as (r & Hr & _).
        exists v, r. split; [exact Hv|]. now rewrite Hr, <- app_assoc.
      - intros (v & tail & Hv & Hd).
        exists v, (tail ++ newline :: d2). split; [exact Hv|].
        now rewrite Hd, <- app_assoc. }
    destruct (is_backed_out (d1 ++ newline :: d2)) eqn:E1;
      destruct (is_backed_out d1) eqn:E2; try reflexivity.
    + apply is_backed_out_announces, Hiff, is_backed_out_announces in E1.
      congruence.
    + apply is_backed_out_announces, Hiff, is_backed_out_announces in E2.
      congruence.
  - rewrite !get_bug_digits.
    assert (Hrun : bug_digits (d1 ++ newline :: d2) = bug_digits d1);
      [|now rewrite Hrun].
    unfold bug_digits. rewrite strip_ci_stop.
    2:{ intros [H|[H|[H|[]]]]; discriminate H. }
    destruct (strip_ci "bug" d1) as [l|]; [|reflexivity].
    cbn [option_map].
    rewrite (drop_while_stop is_blank) by reflexivity.
    now rewrite (take_while_stop is_digit) by reflexivity.
Qed.

Lemma fold_not_letter (c a : char) :
  is_lower a = true -> c <> a -> c <> (a - 32)%N ->
  a <> "i"%char -> a <> "s"%char -> a <> "k"%char -> fold c <> a.
Proof.
  intros Ha H1 H2 Hi Hs Hk Hf. apply (fold_letter c a Ha) in Hf.
  destruct Hf as [H|[H|[[H _]|[[H _]|[H _]]]]]; contradiction.
Qed.

(** X3.  Both patterns are tied to the first character: a description
    whose first character is not "b" or "B" has no bug, and one whose
    first character is none of "b", "B", "r", "R" is no backout; a blank
    before the text is enough to hide it. *)
Theorem classifiers_need_first_character (c : char) (d : str) :
  (c <> "b"%char -> c <> "B"%char -> get_bug (c :: d) = Return (-1)%Z) /\
  (c <> "b"%char -> c <> "B"%char -> c <> "r"%char -> c <> "R"%char ->
   is_backed_out (c :: d) = false).
Proof.
  split.
  - intros Hb HB. rewrite get_bug_digits. unfold bug_digits.
    rewrite strip_bug_first; [reflexivity|].
    apply fold_not_letter; try reflexivity; try discriminate; assumption.
  - intros Hb HB Hr HR. destruct (is_backed_out (c :: d)) eqn:E; [|reflexivity].
    apply is_backed_out_announces in E as (v & tail & Hv & Hd).
    apply verb_head in Hv as (c1 & c2 & v' & -> & Hc).
    injection Hd as -> _. exfalso. destruct Hc as [[H _]|[H _]]; revert H.
    + apply fold_not_letter; try reflexivity; try discriminate; assumption.
    + apply fold_not_letter; try reflexivity; try discriminate; assumption.
Qed.

Lemma classifiers_need_first_character_witness :
  get_bug " bug 555" = Return (-1)%Z /\
  is_backed_out " Backed out changeset 1" = false.
Proof.
  split.
  - apply (proj1 (classifiers_need_first_character " " "bug 555"));
      discriminate.
  - apply (proj2 (classifiers_need_first_character " " "Backed out changeset 1"));
      discriminate.
Defined.

Lemma strip_ci_more (p l r t : list char) :
  strip_ci p l = Some r -> strip_ci p (l ++ t) = Some (r ++ t).
Proof.
  revert l. induction p as [|a p IH]; intros l H.
  - cbn in *. now injection H as ->.
  - destruct l as [|x l]; [discriminate|]. cbn in *.
    destruct (N.eqb (fold x) (fold a)); [auto | discriminate].
Qed.

Lemma drop_while_more (ok : char -> bool) (l t : list char) :
  drop_while ok l <> [] -> drop_while ok (l ++ t) = drop_while ok l ++ t.
Proof.
  induction l as [|x l IH]; cbn [app drop_while]; [congruence|].
  destruct (ok x); [exact IH | reflexivity].
Qed.

Lemma take_while_more (ok : char -> bool) (l t : list char) :
  match t with c :: _ => ok c = false | [] => True end ->
  take_while ok (l ++ t) = take_while ok l.
Proof.
  intros Ht. induction l as [|x l IH]; cbn [app take_while].
  - destruct t as [|c t]; [reflexivity|]. cbn. now rewrite Ht.
  - destruct (ok x); [now rewrite IH | reflexivity].
Qed.

Lemma bug_digits_more (d s : str) :
  bug_digits d <> [] -> no_digit_ahead s -> bug_digits (d ++ s) = bug_digits d.
Proof.
  unfold bug_digits. intros Hne Hs.
  destruct (strip_ci "bug" d) as [l|] eqn:Hl; [|congruence].
  rewrite (strip_ci_more _ _ _ s Hl).
  assert (Hdrop : drop_while is_blank l <> []).
  { intros E. rewrite E in Hne. now apply Hne. }
  now rewrite (drop_while_more _ _ _ Hdrop), (take_while_more is_digit _ _ Hs).
Qed.

(** X4.  What both classifiers find is kept when the description goes on:
    a backout stays a backout whatever is appended, and a bug number stays
    the same when the appended text does not begin with a digit. *)
Theorem classification_kept_by_continuation (d s : str) :
  (is_backed_out d = true -> is_backed_out (d ++ s) = true) /\
  (forall n, get_bug d = Return n -> n <> (-1)%Z ->
             no_digit_ahead s -> get_bug (d ++ s) = Return n).
Proof.
  split.
  - intros H. apply is_backed_out_announces in H as (v & tail & Hv & Hd).
    apply is_backed_out_announces. exists v, (tail ++ s).
    split; [exact Hv|]. now rewrite Hd, <- app_assoc.
  - intros n Hn Hne Hs. rewrite get_bug_digits in *.
    destruct (bug_digits d) as [|c ds] eqn:Hds; [congruence|].
    rewrite bug_digits_more, Hds; [exact Hn | | exact Hs].
    rewrite Hds. discriminate.
Qed.

Lemma classification_kept_by_continuation_witness :
  is_backed_out "Backed out 3 changesets (bug 12) for bustage" = true /\
  get_bug "Bug 12 - part 2" = Return 12%Z.
Proof.
  split.
  - apply (proj1 (classification_kept_by_continuation
                    "Backed out 3 changesets" " (bug 12) for bustage")).
    reflexivity.
  - apply (proj2 (classification_kept_by_continuation "Bug 12" " - part 2") 12%Z).
    + reflexivity.
    + discriminate.
    + reflexivity.
Defined.

(** ** [collect] on any payload *)

Section CollectMore.

Context {A : Type}.
Variable lib : library A.
Variable file_filter : str -> bool.

Lemma collect_changesets_acc (pushdate : datetime) (cs : list json) :
  forall res,
    collect_changesets lib file_filter pushdate cs res
    = rbind (collect_changesets lib file_filter pushdate cs [])
            (fun r => Return (app res r)).
Proof.
  induction cs as [|c cs IH]; intros res; cbn [collect_changesets rbind].
  - now rewrite app_nil_r.
  - destruct (classify lib file_filter pushdate c) as [p|e]; [|reflexivity].
    cbn [rbind app]. rewrite (IH (app res [p])), (IH [p]).
    destruct (collect_changesets lib file_filter pushdate cs []) as [r|e];
      [|reflexivity].
    cbn [rbind]. now rewrite <- app_assoc.
Qed.

Lemma collect_pushes_acc (pushes : list json) :
  forall res,
    collect_pushes lib file_filter pushes res
    = rbind (collect_pushes lib file_filter pushes [])
            (fun r => Return (app res r)).
Proof.
  induction pushes as [|g pushes IH]; intros res; cbn [collect_pushes rbind].
  - now rewrite app_nil_r.
  - destruct (open_push g) as [[pushdate cs]|e]; [|reflexivity].
    cbn [rbind fst snd]. rewrite (collect_changesets_acc pushdate cs res).
    destruct (collect_changesets lib file_filter pushdate cs []) as [r1|e];
      [|reflexivity].
    cbn [rbind]. rewrite (IH (app res r1)), (IH r1).
    destruct (collect_pushes lib file_filter pushes []) as [r2|e]; [|reflexivity].
    cbn [rbind]. now rewrite <- app_assoc.
Qed.

Lemma collect_pushes_app (p1 p2 : list json) :
  forall res,
    collect_pushes lib file_filter (app p1 p2) res
    = rbind (collect_pushes lib file_filter p1 res)
            (collect_pushes lib file_filter p2).
Proof.
  induction p1 as [|g p1 IH]; intros res; cbn [app collect_pushes rbind];
    [reflexivity|].
  destruct (open_push g) as [[pushdate cs]|e]; [|reflexivity].
  cbn [rbind fst snd].
  destruct (collect_changesets lib file_filter pushdate cs res) as [r1|e];
    [|reflexivity].
  cbn [rbind]. apply IH.
Qed.

Lemma collect_parts (kv1 kv2 : list (str * json)) :
  collect lib (JObj [("pushes", JObj (app kv1 kv2))]) file_filter
  = rbind (collect lib (JObj [("pushes", JObj kv1)]) file_filter) (fun r1 =>
    rbind (collect lib (JObj [("pushes", JObj kv2)]) file_filter) (fun r2 =>
    Return (app r1 r2))).
Proof.
  unfold collect. cbn [getitem assoc str_eqb N.eqb Pos.eqb andb rbind values].
  rewrite map_app, collect_pushes_app.
  destruct (collect_pushes lib file_filter (map snd kv1) []) as [r1|e];
    [|reflexivity].
  cbn [rbind]. apply collect_pushes_acc.
Qed.

(** X5.  [collect] works push group by push group: on a "pushes" object
    made of two parts it gives the records of the first part followed by
    those of the second, and it raises what the first part raises, else
    what the second part raises. *)
Theorem collect_concat (kv1 kv2 : list (str * json)) :
  collect lib (JObj [("pushes", JObj (app kv1 kv2))]) file_filter
  = rbind (collect lib (JObj [("pushes", JObj kv1)]) file_filter) (fun r1 =>
    rbind (collect lib (JObj [("pushes", JObj kv2)]) file_filter) (fun r2 =>
    Return (app r1 r2))).
Proof.
  destruct (collect lib (JObj [("pushes", JObj kv1)]) file_filter) as [r1|e]
    eqn:E1; rewrite collect_parts, E1; reflexivity.
Qed.

(** X6.  [collect] raises the exception of the first push group that
    fails: when the groups before it are well shaped, with bug numbers
    that [int] accepts, and the group alone makes [collect] raise [e], the
    whole payload raises [e], whatever groups come after. *)
Theorem collect_first_error (kv1 kv2 : list (str * json)) (id : str)
  (g : json) (groups : list push_group) (e : exn) :
  view_payload (JObj [("pushes", JObj kv1)]) = Some groups ->
  bugs_fit groups = true ->
  collect lib (JObj [("pushes", JObj [(id, g)])]) file_filter = Raise e ->
  collect lib (JObj [("pushes", JObj (app kv1 ((id, g) :: kv2)))]) file_filter
  = Raise e.
Proof.
  intros Hview Hfit Hg. rewrite collect_parts.
  rewrite (collect_view_fits lib file_filter _ _ Hview Hfit). cbn [rbind].
  change ((id, g) :: kv2) with (app [(id, g)] kv2).
  rewrite collect_parts, Hg. reflexivity.
Qed.

(** X7.  The exception tells what is wrong with the top of the payload: a
    payload that is no object gives [TypeError], an object without
    "pushes" gives [KeyError("pushes")], a "pushes" that is no object gives
    [AttributeError], and a first push group without "date" gives
    [KeyError("date")]. *)
Theorem collect_names_the_fault :
  (forall data, (forall kv, data <> JObj kv) ->
     collect lib data file_filter = Raise TypeError) /\
  (forall data, lacks "pushes" data ->
     collect lib data file_filter = Raise (KeyError (JStr "pushes"))) /\
  (forall kv v, assoc "pushes" kv = Some v -> (forall o, v <> JObj o) ->
     collect lib (JObj kv) file_filter = Raise AttributeError) /\
  (forall kv id g rest,
     assoc "pushes" kv = Some (JObj ((id, g) :: rest)) -> lacks "date" g ->
     collect lib (JObj kv) file_filter = Raise (KeyError (JStr "date"))).
Proof.
  repeat split.
  - intros data H. destruct data; try reflexivity. now destruct (H kv).
  - intros data (kv & -> & Hk). unfold collect, getitem. now rewrite Hk.
  - intros kv v Hv H. unfold collect, getitem. rewrite Hv. cbn [rbind].
    destruct v; try reflexivity. now destruct (H kv0).
  - intros kv id g rest Hp (o & -> & Hd). unfold collect, getitem.
    rewrite Hp. cbn [rbind values map snd collect_pushes].
    unfold open_push, getitem. now rewrite Hd.
Qed.

End CollectMore.

Lemma collect_first_error_witness :
  collect sample_library
    (JObj [("pushes",
            JObj (app (map (fun p => (fst p, enc_group (snd p))) sample_repo)
                      [("104", JObj [("date", JNum 0)]);
                       ("105", JNull)]))])
    (fun _ => true)
  = Raise (KeyError (JStr "changesets")).
Proof.
  apply (collect_first_error sample_library (fun _ => true)
           (map (fun p => (fst p, enc_group (snd p))) sample_repo)
           [("105", JNull)] "104"
           (JObj [("date", JNum 0)]) (map snd sample_repo)).
  - reflexivity.
  - reflexivity.
  - reflexivity.
Defined.

Lemma collect_names_the_fault_witness :
  collect sample_library (JObj [("pushes", JArr [])]) (fun _ => true)
  = Raise AttributeError /\
  collect sample_library (JObj [("tip", JNum 1)]) (fun _ => true)
  = Raise (KeyError (JStr "pushes")).
Proof.
  split.
  - apply (proj1 (proj2 (proj2 (collect_names_the_fault sample_library
                                  (fun _ => true))))
             [("pushes", JArr [])] (JArr [])).
    + reflexivity.
    + discriminate.
  - apply (proj1 (proj2 (collect_names_the_fault sample_library (fun _ => true)))).
    exists [("tip", JNum 1)]. split; reflexivity.
Defined.

(** ** The entry points and their services *)

Section EntryPointsMore.

Context {A : Type}.
Variable lib : library A.
Variable w : world.

Lemma revs_url_value (startrev endrev channel : str) (log : list event) :
  pushlog_for_revs_url lib startrev endrev channel log
  = (Return (get_repo_url lib channel ++ "/pushloghtml?fromchange="
               ++ startrev ++ "&tochange=" ++ endrev),
     log).
Proof.
  unfold pushlog_for_revs_url, io_lift. cbn [format rbind N.eqb Pos.eqb].
  now rewrite app_nil_r.
Qed.

Lemma pushlog_for_revs_request (startrev endrev channel : str)
  (file_filter : str -> bool) (log : list event) :
  pushlog_for_revs lib w startrev endrev channel file_filter log
  = (rbind (requests_get w (get_repo_url lib channel ++ "/json-pushes")
              [("fromchange", JStr startrev); ("tochange", JStr endrev);
               ("version", JNum 2); ("full", JNum 1)])
           (fun r => collect lib r file_filter),
     app log [HttpGet (get_repo_url lib channel ++ "/json-pushes")
                [("fromchange", JStr startrev); ("tochange", JStr endrev);
                 ("version", JNum 2); ("full", JNum 1)]]).
Proof.
  unfold pushlog_for_revs, io_bind, io_lift, http_get_json, ask.
  rewrite json_pushes_url_value.
  destruct (requests_get w _ _); reflexivity.
Qed.

(** X8.  [pushlog_for_revs] asks the service one question, at
    "{repo}/json-pushes" with the two revisions as they were given under
    "fromchange" and "tochange" and with version 2 and full 1; when the
    answer is a well-shaped payload whose bug numbers [int] accepts, it
    returns the records of all its groups, in order: it neither adds nor
    removes a push at either end. *)
Theorem pushlog_for_revs_returns_answer (startrev endrev channel : str)
  (file_filter : str -> bool) (log : list event) (data : json)
  (groups : list push_group) :
  requests_get w (get_repo_url lib channel ++ "/json-pushes")
    [("fromchange", JStr startrev); ("tochange", JStr endrev);
     ("version", JNum 2); ("full", JNum 1)] = Return data ->
  view_payload data = Some groups ->
  bugs_fit groups = true ->
  pushlog_for_revs lib w startrev endrev channel file_filter log
  = (Return (classified_all lib file_filter groups),
     app log [HttpGet (get_repo_url lib channel ++ "/json-pushes")
                [("fromchange", JStr startrev); ("tochange", JStr endrev);
                 ("version", JNum 2); ("full", JNum 1)]]).
Proof.
  intros Hanswer Hview Hfit. rewrite pushlog_for_revs_request, Hanswer.
  cbn [rbind]. now rewrite (collect_view_fits lib file_filter _ _ Hview Hfit).
Qed.

(** X9.  When the service of pushes fails, [pushlog] and
    [pushlog_for_revs] raise that very failure after one question: they
    neither ask again nor return an empty list. *)
Theorem push_service_failure_is_passed_on (e : exn) :
  (forall url params, requests_get w url params = Raise e) ->
  forall startdate enddate startrev endrev channel file_filter log,
    fst (pushlog lib w startdate enddate channel file_filter log) = Raise e /\
    length (snd (pushlog lib w startdate enddate channel file_filter log))
    = S (length log) /\
    fst (pushlog_for_revs lib w startrev endrev channel file_filter log)
    = Raise e /\
    length (snd (pushlog_for_revs lib w startrev endrev channel file_filter log))
    = S (length log).
Proof.
  intros Hdown startdate enddate startrev endrev channel file_filter log.
  rewrite pushlog_request, pushlog_for_revs_request. cbn [fst snd].
  rewrite !Hdown, !length_app. cbn. repeat split; lia.
Qed.

(** X10.  When the remote lookup gives at least two builds whose revisions
    are text, [pushlog_for_buildid] is [pushlog_for_revs] on the revisions
    of the first two, in that order; further builds are not looked at. *)
Theorem pushlog_for_buildid_two_builds (buildid channel product : str)
  (file_filter : str -> bool) (log : list event)
  (b0 b1 : json) (more : list json) (r0 r1 : str) :
  buildhub_get_two_last w buildid channel product
  = Return (JArr (b0 :: b1 :: more)) ->
  getitem b0 "revision" = Return (JStr r0) ->
  getitem b1 "revision" = Return (JStr r1) ->
  pushlog_for_buildid lib w buildid channel product file_filter log
  = (rbind (fst (pushlog_for_revs lib w r0 r1 channel file_filter
                   (app log [BuildhubTwoLast buildid channel product])))
           (fun recs => Return (Some recs)),
     snd (pushlog_for_revs lib w r0 r1 channel file_filter
            (app log [BuildhubTwoLast buildid channel product]))).
Proof.
  intros Hb H0 H1. unfold pushlog_for_buildid, io_bind, io_lift, ask, io_ret.
  rewrite Hb. cbn [truthy]. unfold revision_of.
  cbn [getindex nth_error rbind]. rewrite H0, H1. cbn [as_str].
  destruct (pushlog_for_revs lib w r0 r1 channel file_filter _) as [[recs|e] log'];
    reflexivity.
Qed.

(** X11.  When the remote lookup fails, or gives an answer that counts as
    false ([None], an empty list), [pushlog_for_buildid] stops there: it
    passes the failure on, or returns [None], and the service of pushes is
    not asked. *)
Theorem pushlog_for_buildid_stops_early (buildid channel product : str)
  (file_filter : str -> bool) (log : list event) :
  (forall e,
     buildhub_get_two_last w buildid channel product = Raise e ->
     pushlog_for_buildid lib w buildid channel product file_filter log
     = (Raise e, app log [BuildhubTwoLast buildid channel product])) /\
  (forall data,
     buildhub_get_two_last w buildid channel product = Return data ->
     truthy data = false ->
     pushlog_for_buildid lib w buildid channel product file_filter log
     = (Return None, app log [BuildhubTwoLast buildid channel product])).
Proof.
  split.
  - intros e He. unfold pushlog_for_buildid, io_bind, ask. now rewrite He.
  - intros data Hd Hf. unfold pushlog_for_buildid, io_bind, ask, io_ret.
    now rewrite Hd, Hf.
Qed.

(** X12.  When the stored lookup gives exactly two builds whose revisions
    are text, [pushlog_for_buildid_url] returns the URL of these two
    revisions and the remote lookup is not asked. *)
Theorem pushlog_for_buildid_url_stored (buildid channel product : str)
  (log : list event) (b0 b1 : json) (r0 r1 : str) :
  models_get_two_last w (get_build_date lib buildid) channel product
  = Return (JArr [b0; b1]) ->
  getitem b0 "revision" = Return (JStr r0) ->
  getitem b1 "revision" = Return (JStr r1) ->
  pushlog_for_buildid_url lib w buildid channel product log
  = (Return (Some (get_repo_url lib channel ++ "/pushloghtml?fromchange="
                     ++ r0 ++ "&tochange=" ++ r1)),
     app log [ModelsTwoLast (get_build_date lib buildid) channel product]).
Proof.
  intros Hm H0 H1.
  unfold pushlog_for_buildid_url, io_bind, io_lift, ask, io_ret.
  rewrite Hm. cbn [py_len length Nat.eqb negb truthy]. unfold revision_of.
  cbn [getindex nth_error rbind]. rewrite H0, H1. cbn [as_str].
  now rewrite revs_url_value.
Qed.

(** X13.  When the stored lookup gives a sized answer that has not two
    elements, [pushlog_for_buildid_url] asks the remote lookup and, with at
    least two builds there whose revisions are text, returns the URL of the
    first two. *)
Theorem pushlog_for_buildid_url_falls_back (buildid channel product : str)
  (log : list event) (stored : json) (n : nat)
  (b0 b1 : json) (more : list json) (r0 r1 : str) :
  models_get_two_last w (get_build_date lib buildid) channel product
  = Return stored ->
  py_len stored = Return n -> n <> 2 ->
  buildhub_get_two_last w buildid channel product
  = Return (JArr (b0 :: b1 :: more)) ->
  getitem b0 "revision" = Return (JStr r0) ->
  getitem b1 "revision" = Return (JStr r1) ->
  pushlog_for_buildid_url lib w buildid channel product log
  = (Return (Some (get_repo_url lib channel ++ "/pushloghtml?fromchange="
                     ++ r0 ++ "&tochange=" ++ r1)),
     app log [ModelsTwoLast (get_build_date lib buildid) channel product;
              BuildhubTwoLast buildid channel product]).
Proof.
  intros Hm Hn Hne Hb H0 H1.
  unfold pushlog_for_buildid_url, io_bind, io_lift, ask, io_ret.
  rewrite Hm, Hn. apply Nat.eqb_neq in Hne. rewrite Hne. cbn [negb].
  rewrite Hb. cbn [truthy]. unfold revision_of.
  cbn [getindex nth_error rbind]. rewrite H0, H1. cbn [as_str].
  rewrite revs_url_value. now rewrite <- app_assoc.
Qed.

(** X14.  When the stored lookup gives an answer that has no length (such
    as [None]), [pushlog_for_buildid_url] raises the [TypeError] of [len]:
    it does not fall back to the remote lookup. *)
Theorem pushlog_for_buildid_url_unsized (buildid channel product : str)
  (log : list event) (stored : json) (e : exn) :
  models_get_two_last w (get_build_date lib buildid) channel product
  = Return stored ->
  py_len stored = Raise e ->
  e = TypeError /\
  pushlog_for_buildid_url lib w buildid channel product log
  = (Raise TypeError,
     app log [ModelsTwoLast (get_build_date lib buildid) channel product]).
Proof.
  intros Hm Hn.
  assert (He : e = TypeError) by (destruct stored; cbn in Hn; congruence).
  split; [exact He|]. subst e.
  unfold pushlog_for_buildid_url, io_bind, io_lift, ask. now rewrite Hm, Hn.
Qed.

(** X15.  [pushlog_for_buildid_url] only extends the log of questions, and
    never asks the service of pushes, whatever the lookups answer. *)
Theorem pushlog_for_buildid_url_asks_no_pushes (buildid channel product : str)
  (log : list event) :
  exists asked,
    snd (pushlog_for_buildid_url lib w buildid channel product log)
    = app log asked /\
    existsb is_http_event asked = false.
Proof.
  unfold pushlog_for_buildid_url, io_bind, io_lift, ask, io_ret.
  destruct (models_get_two_last w (get_build_date lib buildid) channel product)
    as [stored|e1]; [|eexists; split; reflexivity].
  destruct (py_len stored) as [n|e2]; [|eexists; split; reflexivity].
  destruct (negb (n =? 2)%nat).
  - destruct (buildhub_get_two_last w buildid channel product) as [data|e3];
      [|rewrite <- app_assoc; eexists; split; reflexivity].
    destruct (truthy data); [|rewrite <- app_assoc; eexists; split; reflexivity].
    destruct (revision_of data 0) as [s0|?];
      [|rewrite <- app_assoc; eexists; split; reflexivity].
    destruct (revision_of data 1) as [s1|?];
      [|rewrite <- app_assoc; eexists; split; reflexivity].
    destruct (as_str s0) as [t0|?];
      [|rewrite <- app_assoc; eexists; split; reflexivity].
    destruct (as_str s1) as [t1|?];
      [|rewrite <- app_assoc; eexists; split; reflexivity].
    rewrite revs_url_value, <- app_assoc. eexists; split; reflexivity.
  - destruct (truthy stored); [|eexists; split; reflexivity].
    destruct (revision_of stored 0) as [s0|?]; [|eexists; split; reflexivity].
    destruct (revision_of stored 1) as [s1|?]; [|eexists; split; reflexivity].
    destruct (as_str s0) as [t0|?]; [|eexists; split; reflexivity].
    destruct (as_str s1) as [t1|?]; [|eexists; split; reflexivity].
    rewrite revs_url_value. eexists; split; reflexivity.
Qed.

End EntryPointsMore.

Lemma push_service_failure_is_passed_on_witness :
  fst (pushlog_for_revs sample_library one_build_world "aaaa" "cccc" "nightly"
         (fun _ => true) [])
  = Raise TransportError.
Proof.
  apply (push_service_failure_is_passed_on sample_library one_build_world
           TransportError (fun _ _ => eq_refl) 0%Z 0%Z "aaaa"
           "cccc" "nightly" (fun _ => true) []).
Defined.

Lemma pushlog_for_revs_returns_answer_witness :
  exists recs,
    fst (pushlog_for_revs sample_library two_builds_world "aaaaaaaaaaaa"
           "cccccccccccc" "nightly" (fun _ => true) [])
    = Return recs /\ length recs = 3.
Proof.
  eexists. split.
  - rewrite (pushlog_for_revs_returns_answer sample_library two_builds_world
               "aaaaaaaaaaaa" "cccccccccccc" "nightly" (fun _ => true) []
               (enc_payload sample_repo) (map snd sample_repo)
               eq_refl eq_refl eq_refl).
    reflexivity.
  - reflexivity.
Defined.

Lemma pushlog_for_buildid_two_builds_witness :
  exists recs,
    fst (pushlog_for_buildid sample_library two_builds_world "20200102000000"
           "nightly" "Firefox" (fun _ => true) [])
    = Return (Some recs) /\ length recs = 3.
Proof.
  eexists. split.
  - rewrite (pushlog_for_buildid_two_builds sample_library two_builds_world
               "20200102000000" "nightly" "Firefox" (fun _ => true) []
               (build "aaaaaaaaaaaa") (build "cccccccccccc") []
               "aaaaaaaaaaaa" "cccccccccccc" eq_refl eq_refl eq_refl).
    reflexivity.
  - reflexivity.
Defined.

Lemma pushlog_for_buildid_stops_early_witness :
  pushlog_for_buildid sample_library sample_world "20200102000000" "nightly"
                      "Firefox" (fun _ => true) []
  = (Return None, [BuildhubTwoLast "20200102000000" "nightly" "Firefox"]).
Proof.
  apply (proj2 (pushlog_for_buildid_stops_early sample_library sample_world
                  "20200102000000" "nightly" "Firefox" (fun _ => true) [])
           (JArr [])); reflexivity.
Defined.

Lemma pushlog_for_buildid_url_stored_witness :
  pushlog_for_buildid_url sample_library stored_builds_world "20200102000000"
                          "beta" "Firefox" []
  = (Return (Some "https://hg.mozilla.org/releases/mozilla-beta/pushloghtml?fromchange=aaaaaaaaaaaa&tochange=cccccccccccc"),
     [ModelsTwoLast 0%Z "beta" "Firefox"]).
Proof.
  apply (pushlog_for_buildid_url_stored sample_library stored_builds_world
           "20200102000000" "beta" "Firefox" []
           (build "aaaaaaaaaaaa") (build "cccccccccccc")
           "aaaaaaaaaaaa" "cccccccccccc"); reflexivity.
Defined.

Lemma pushlog_for_buildid_url_falls_back_witness :
  pushlog_for_buildid_url sample_library two_builds_world "20200102000000"
                          "nightly" "Firefox" []
  = (Return (Some "https://hg.mozilla.org/mozilla-central/pushloghtml?fromchange=aaaaaaaaaaaa&tochange=cccccccccccc"),
     [ModelsTwoLast 0%Z "nightly" "Firefox";
      BuildhubTwoLast "20200102000000" "nightly" "Firefox"]).
Proof.
  apply (pushlog_for_buildid_url_falls_back sample_library two_builds_world
           "20200102000000" "nightly" "Firefox" [] (JArr []) 0
           (build "aaaaaaaaaaaa") (build "cccccccccccc") []
           "aaaaaaaaaaaa" "cccccccccccc"); try reflexivity.
  discriminate.
Defined.

Lemma pushlog_for_buildid_url_unsized_witness :
  pushlog_for_buildid_url sample_library
    (lookup_world (fun _ _ => Raise TransportError) two_builds JNull)
    "20200102000000" "nightly" "Firefox" []
  = (Raise TypeError, [ModelsTwoLast 0%Z "nightly" "Firefox"]).
Proof.
  apply (pushlog_for_buildid_url_unsized sample_library
           (lookup_world (fun _ _ => Raise TransportError) two_builds JNull)
           "20200102000000" "nightly" "Firefox" [] JNull TypeError);
    reflexivity.
Defined.

(** ** The URL by push date and by revision *)

Section PushdateFacts.

Context {A : Type}.
Variable lib : library A.
Variable lk : lookups.

Lemma widen_revs_url (startrev endrev channel : str) (log : list question) :
  widen (pushlog_for_revs_url lib startrev endrev channel) log
  = (Return (get_repo_url lib channel ++ "/pushloghtml?fromchange="
               ++ startrev ++ "&tochange=" ++ endrev),
     log).
Proof.
  unfold widen. rewrite revs_url_value. cbn [fst snd map].
  now rewrite app_nil_r.
Qed.

(** X16.  When the enclosing builds have no upper bound (the second entry
    is [None]), [pushlog_for_pushdate_url] returns the URL from the first
    build's revision to "tip". *)
Theorem pushlog_for_pushdate_url_tip (pushdate : datetime)
  (channel product : str) (log : list question)
  (b0 : json) (more : list json) (r0 : str) :
  buildhub_get_enclosing_builds lk pushdate channel product
  = Return (JArr (b0 :: JNull :: more)) ->
  getitem b0 "revision" = Return (JStr r0) ->
  pushlog_for_pushdate_url lib lk pushdate channel product log
  = (Return (Some (get_repo_url lib channel ++ "/pushloghtml?fromchange="
                     ++ r0 ++ "&tochange=tip")),
     app log [EnclosingBuilds pushdate channel product]).
Proof.
  intros Hb H0.
  unfold pushlog_for_pushdate_url, wio_bind, wio_lift, wio_ask, wio_ret.
  rewrite Hb. cbn [truthy]. unfold revision_of.
  cbn [getindex nth_error rbind is_none]. rewrite H0. cbn [as_str].
  now rewrite widen_revs_url.
Qed.

(** X17.  When both enclosing builds are there and their revisions are
    text, [pushlog_for_pushdate_url] returns the same URL as
    [pushlog_for_revs_url] on the two revisions, and no service but the
    lookup is asked. *)
Theorem pushlog_for_pushdate_url_both (pushdate : datetime)
  (channel product : str) (log : list question)
  (b0 b1 : json) (more : list json) (r0 r1 : str) :
  buildhub_get_enclosing_builds lk pushdate channel product
  = Return (JArr (b0 :: b1 :: more)) ->
  getitem b0 "revision" = Return (JStr r0) ->
  getitem b1 "revision" = Return (JStr r1) ->
  pushlog_for_pushdate_url lib lk pushdate channel product log
  = (rbind (fst (pushlog_for_revs_url lib r0 r1 channel []))
           (fun url => Return (Some url)),
     app log [EnclosingBuilds pushdate channel product]).
Proof.
  intros Hb H0 H1.
  assert (Hsome : is_none b1 = false).
  { destruct b1; try reflexivity. discriminate H1. }
  unfold pushlog_for_pushdate_url, wio_bind, wio_lift, wio_ask, wio_ret.
  rewrite Hb. cbn [truthy]. unfold revision_of.
  cbn [getindex nth_error rbind]. rewrite Hsome, H0.
  cbn [getindex nth_error rbind]. rewrite H1. cbn [as_str].
  now rewrite widen_revs_url, revs_url_value.
Qed.

(** X18.  When the lookup of enclosing builds gives an answer that counts
    as false, [pushlog_for_pushdate_url] returns [None]; when it gives a
    list of one build, reading the second entry raises [IndexError]. *)
Theorem pushlog_for_pushdate_url_short (pushdate : datetime)
  (channel product : str) (log : list question) :
  (forall data,
     buildhub_get_enclosing_builds lk pushdate channel product = Return data ->
     truthy data = false ->
     pushlog_for_pushdate_url lib lk pushdate channel product log
     = (Return None, app log [EnclosingBuilds pushdate channel product])) /\
  (forall b r0,
     buildhub_get_enclosing_builds lk pushdate channel product
     = Return (JArr [b]) ->
     getitem b "revision" = Return r0 ->
     pushlog_for_pushdate_url lib lk pushdate channel product log
     = (Raise IndexError, app log [EnclosingBuilds pushdate channel product])).
Proof.
  split.
  - intros data Hd Hf.
    unfold pushlog_for_pushdate_url, wio_bind, wio_ask, wio_ret.
    now rewrite Hd, Hf.
  - intros b r0 Hb H0.
    unfold pushlog_for_pushdate_url, wio_bind, wio_lift, wio_ask, wio_ret.
    rewrite Hb. cbn [truthy]. unfold revision_of.
    cbn [getindex nth_error rbind]. now rewrite H0.
Qed.

(** X19.  When the revision is known and the first of its push dates is a
    number, [pushlog_for_rev_url] is [pushlog_for_pushdate_url] at the
    moment of that timestamp; the other push dates are not looked at. *)
Theorem pushlog_for_rev_url_composes (revision channel product : str)
  (log : list question) (data : json) (first : json) (others : list json)
  (ts : Z) :
  revision_get_revision lk channel revision = Return data ->
  getitem data "pushdate" = Return (JArr (first :: others)) ->
  as_timestamp first = Return ts ->
  pushlog_for_rev_url lib lk revision channel product log
  = pushlog_for_pushdate_url lib lk (get_date_from_timestamp ts) channel product
      (app log [GetRevision channel revision]).
Proof.
  intros Hr Hp Hts. unfold pushlog_for_rev_url, wio_bind, wio_lift, wio_ask.
  rewrite Hr, Hp. cbn [getindex nth_error]. now rewrite Hts.
Qed.

(** X20.  [pushlog_for_rev_url] has no "no result" of its own: when the
    revision lookup fails it raises that failure, when its answer has no
    "pushdate" it raises [KeyError("pushdate")], and when the list of push
    dates is empty it raises [IndexError]; in all three cases the lookup of
    builds is not asked. *)
Theorem pushlog_for_rev_url_failures (revision channel product : str)
  (log : list question) :
  (forall e,
     revision_get_revision lk channel revision = Raise e ->
     pushlog_for_rev_url lib lk revision channel product log
     = (Raise e, app log [GetRevision channel revision])) /\
  (forall data,
     revision_get_revision lk channel revision = Return data ->
     lacks "pushdate" data ->
     pushlog_for_rev_url lib lk revision channel product log
     = (Raise (KeyError (JStr "pushdate")),
        app log [GetRevision channel revision])) /\
  (forall data,
     revision_get_revision lk channel revision = Return data ->
     getitem data "pushdate" = Return (JArr []) ->
     pushlog_for_rev_url lib lk revision channel product log
     = (Raise IndexError, app log [GetRevision channel revision])).
Proof.
  repeat split.
  - intros e He. unfold pushlog_for_rev_url, wio_bind, wio_ask. now rewrite He.
  - intros data Hd (kv & -> & Hk).
    unfold pushlog_for_rev_url, wio_bind, wio_lift, wio_ask, getitem.
    now rewrite Hd, Hk.
  - intros data Hd Hp. unfold pushlog_for_rev_url, wio_bind, wio_lift, wio_ask.
    now rewrite Hd, Hp.
Qed.

Lemma pushdate_url_log (pushdate : datetime) (channel product : str)
  (log : list question) :
  snd (pushlog_for_pushdate_url lib lk pushdate channel product log)
  = app log [EnclosingBuilds pushdate channel product].
Proof.
  unfold pushlog_for_pushdate_url, wio_bind, wio_lift, wio_ask, wio_ret.
  destruct (buildhub_get_enclosing_builds lk pushdate channel product)
    as [data|]; [|reflexivity].
  destruct (truthy data); [|reflexivity].
  destruct (revision_of data 0) as [s0|]; [|reflexivity].
  destruct (getindex data 1) as [upper|]; [|reflexivity].
  destruct (is_none upper).
  - cbn [as_str]. destruct (as_str s0); [|reflexivity].
    now rewrite widen_revs_url.
  - destruct (revision_of data 1) as [s1|]; [|reflexivity].
    destruct (as_str s0); [|reflexivity].
    destruct (as_str s1); [|reflexivity].
    now rewrite widen_revs_url.
Qed.

(** X21.  The two URL functions by push date and by revision ask the
    lookups only: [pushlog_for_pushdate_url] asks the enclosing builds
    exactly once, [pushlog_for_rev_url] asks the revision first and the
    enclosing builds at most once after it, and neither ever asks the
    service of pushes. *)
Theorem url_lookups_only (pushdate : datetime) (revision channel product : str)
  (log : list question) :
  snd (pushlog_for_pushdate_url lib lk pushdate channel product log)
  = app log [EnclosingBuilds pushdate channel product] /\
  exists asked,
    snd (pushlog_for_rev_url lib lk revision channel product log)
    = app log (GetRevision channel revision :: asked) /\
    length asked <= 1 /\ existsb is_http asked = false.
Proof.
  split; [apply pushdate_url_log|].
  unfold pushlog_for_rev_url, wio_bind, wio_lift, wio_ask.
  destruct (revision_get_revision lk channel revision) as [data|];
    [|exists []; cbn; auto].
  destruct (getitem data "pushdate") as [pushdates|]; [|exists []; cbn; auto].
  destruct (getindex pushdates 0) as [first|]; [|exists []; cbn; auto].
  destruct (as_timestamp first) as [ts|]; [|exists []; cbn; auto].
  rewrite pushdate_url_log, <- app_assoc.
  eexists. split; [reflexivity|]. cbn. auto.
Qed.

End PushdateFacts.

Lemma pushlog_for_pushdate_url_tip_witness :
  pushlog_for_pushdate_url sample_library sample_lookups 1577836800000000%Z
                           "nightly" "Firefox" []
  = (Return (Some "https://hg.mozilla.org/mozilla-central/pushloghtml?fromchange=aaaaaaaaaaaa&tochange=tip"),
     [EnclosingBuilds 1577836800000000%Z "nightly" "Firefox"]).
Proof.
  apply (pushlog_for_pushdate_url_tip sample_library sample_lookups
           1577836800000000%Z "nightly" "Firefox" []
           (build "aaaaaaaaaaaa") [] "aaaaaaaaaaaa"); reflexivity.
Defined.

Lemma pushlog_for_pushdate_url_both_witness :
  fst (pushlog_for_pushdate_url sample_library
         (Lookups (fun _ _ _ => Return two_builds) (fun _ _ => Raise TransportError))
         1577836800000000%Z "beta" "Firefox" [])
  = Return (Some "https://hg.mozilla.org/releases/mozilla-beta/pushloghtml?fromchange=aaaaaaaaaaaa&tochange=cccccccccccc").
Proof.
  rewrite (pushlog_for_pushdate_url_both sample_library
             (Lookups (fun _ _ _ => Return two_builds)
                      (fun _ _ => Raise TransportError))
             1577836800000000%Z "beta" "Firefox" []
             (build "aaaaaaaaaaaa") (build "cccccccccccc") []
             "aaaaaaaaaaaa" "cccccccccccc" eq_refl eq_refl eq_refl).
  reflexivity.
Defined.

Lemma pushlog_for_pushdate_url_short_witness :
  pushlog_for_pushdate_url sample_library
    (Lookups (fun _ _ _ => Return one_build) (fun _ _ => Raise TransportError))
    0%Z "nightly" "Firefox" []
  = (Raise IndexError, [EnclosingBuilds 0%Z "nightly" "Firefox"]).
Proof.
  apply (proj2 (pushlog_for_pushdate_url_short sample_library
                  (Lookups (fun _ _ _ => Return one_build)
                           (fun _ _ => Raise TransportError))
                  0%Z "nightly" "Firefox" [])
           (build "aaaaaaaaaaaa") (JStr "aaaaaaaaaaaa")); reflexivity.
Defined.

Lemma pushlog_for_rev_url_composes_witness :
  pushlog_for_rev_url sample_library sample_lookups "aaaaaaaaaaaa" "nightly"
                      "Firefox" []
  = (Return (Some "https://hg.mozilla.org/mozilla-central/pushloghtml?fromchange=aaaaaaaaaaaa&tochange=tip"),
     [GetRevision "nightly" "aaaaaaaaaaaa";
      EnclosingBuilds 1577836800000000%Z "nightly" "Firefox"]).
Proof.
  rewrite (pushlog_for_rev_url_composes sample_library sample_lookups
             "aaaaaaaaaaaa" "nightly" "Firefox" []
             (JObj [("pushdate", JArr [JNum 1577836800; JNum 0])])
             (JNum 1577836800) [JNum 0] 1577836800%Z eq_refl eq_refl eq_refl).
  reflexivity.
Defined.

Lemma pushlog_for_rev_url_failures_witness :
  pushlog_for_rev_url sample_library
    (Lookups (fun _ _ _ => Return two_builds)
             (fun _ _ => Return (JObj [("node", JStr "aaaaaaaaaaaa")])))
    "aaaaaaaaaaaa" "nightly" "Firefox" []
  = (Raise (KeyError (JStr "pushdate")), [GetRevision "nightly" "aaaaaaaaaaaa"]).
Proof.
  apply (proj1 (proj2 (pushlog_for_rev_url_failures sample_library
           (Lookups (fun _ _ _ => Return two_builds)
              (fun _ _ => Return (JObj [("node", JStr "aaaaaaaaaaaa")])))
           "aaaaaaaaaaaa" "nightly" "Firefox" []))
           (JObj [("node", JStr "aaaaaaaaaaaa")])).
  - reflexivity.
  - eexists. split; reflexivity.
Defined.

(** ** The module at work *)

Example is_backed_out_samples :
  map is_backed_out
      ["Backed out changeset abcd1234 (bug 555)"; "backing out changeset 12";
       "REVERTS x"; "revert of revision 9"; "Backout_ 3 csets";
       "Backed out"; "REVERTS"; "this reverts nothing important"]
  = [true; true; true; true; true; false; false; false].
Proof. reflexivity. Qed.

Example is_backed_out_beyond_ascii :
  map is_backed_out
      ["revert" ++ [dotted_I] ++ "ng x"; "Revert" ++ [dotless_i] ++ "ng x";
       "Bac" ++ [kelvin] ++ " out changeset 1";
       "revert" ++ [long_s] ++ " changeset 1";
       "r" ++ [0xE9%N] ++ "vert changeset 1"]
  = [true; true; true; true; false].
Proof. reflexivity. Qed.

Example get_bug_samples :
  map get_bug ["Bug 555: fix"; "bug12345 and more"; "BUG   7"; "a bug 1";
               "bug"; "Backed out changeset abcd1234 (bug 555)"]
  = [Return 555%Z; Return 12345%Z; Return 7%Z; Return (-1)%Z; Return (-1)%Z;
     Return (-1)%Z].
Proof. reflexivity. Qed.

Example pushlog_for_buildid_one_build :
  pushlog_for_buildid sample_library one_build_world "20200101000000"
                      "nightly" "Firefox" (fun _ => true) []
  = (Raise IndexError, [BuildhubTwoLast "20200101000000" "nightly" "Firefox"]).
Proof. reflexivity. Qed.

Example pushlog_for_buildid_url_one_build :
  pushlog_for_buildid_url sample_library one_build_world "20200101000000"
                          "nightly" "Firefox" []
  = (Raise IndexError,
     [ModelsTwoLast 0%Z "nightly" "Firefox";
      BuildhubTwoLast "20200101000000" "nightly" "Firefox"]).
Proof. reflexivity. Qed.

Example pushlog_for_revs_url_sample :
  pushlog_for_revs_url sample_library "abc" "def" "beta" []
  = (Return "https://hg.mozilla.org/releases/mozilla-beta/pushloghtml?fromchange=abc&tochange=def",
     []).
Proof. reflexivity. Qed.
